(** * Blindfold chess: move-candidate resolution and rejection diagnosis

    A shallow embedding of [candidate_moves.py], [request_assistant.py],
    [feedback_assistant.py] and [voice_control.py].

    Squares are the integers 0..63 (a1 = 0, h1 = 7, a8 = 56), bitboards and
    square sets are integers whose bit [s] stands for square [s], colours are
    booleans ([true] is white), exactly as the rules engine the code imports
    represents them.  The rules engine itself is an interface ([RulesEngine]);
    a reference instance ([RefEngine]) is given at the end of the definitions
    and is used to run the code on concrete positions. *)

From Stdlib Require Import ZArith List String Ascii Bool Lia.
Import ListNotations.
Local Open Scope string_scope.
Local Open Scope list_scope.
Local Open Scope Z_scope.

Set Implicit Arguments.

(** ** Exceptions, results and the state monad of the board *)

Inductive exn : Type :=
| ValueError | AttributeError | IndexError | KeyError
| AssertionError | RecursionError.

Inductive result (A : Type) : Type :=
| Ok (a : A)
| Raise (e : exn).
Arguments Ok {A} a.
Arguments Raise {A} e.

Definition is_ok {A} (r : result A) : bool :=
  match r with Ok _ => true | Raise _ => false end.

(** A computation over a mutable store [S]: it returns a value or raises,
    and in both cases leaves a store behind (what was written before an
    exception stays written). *)
Definition M (S A : Type) : Type := S -> result A * S.

Definition ret {S A} (a : A) : M S A := fun s => (Ok a, s).
Definition raise {S A} (e : exn) : M S A := fun s => (Raise e, s).
Definition bind {S A B} (m : M S A) (k : A -> M S B) : M S B :=
  fun s => match m s with
           | (Ok a, s') => k a s'
           | (Raise e, s') => (Raise e, s')
           end.
Definition gets {S A} (f : S -> A) : M S A := fun s => (Ok (f s), s).
Definition modify {S} (f : S -> S) : M S unit := fun s => (Ok tt, f s).
Definition lift_result {S A} (r : result A) : M S A := fun s => (r, s).

(** [try: m except ValueError: h] *)
Definition try_except_ValueError {S A} (m : M S A) (h : M S A) : M S A :=
  fun s => match m s with
           | (Raise ValueError, s') => h s'
           | r => r
           end.

Declare Scope monad_scope.
Delimit Scope monad_scope with monad.
Notation "x <- m ;; k" := (bind m (fun x => k))
  (at level 61, m at next level, right associativity) : monad_scope.
Notation "m ;;; k" := (bind m (fun _ => k))
  (at level 61, right associativity) : monad_scope.
Local Open Scope monad_scope.

Definition rbind {A B} (r : result A) (k : A -> result B) : result B :=
  match r with Ok a => k a | Raise e => Raise e end.

(** ** Squares and bitboards *)

Definition Square := Z.
Definition Bitboard := Z.
Definition Color := bool.
Definition WHITE : Color := true.
Definition BLACK : Color := false.

Definition BB_EMPTY : Bitboard := 0.
Definition BB_ALL : Bitboard := 0xffffffffffffffff.
Definition BB_SQUARE (s : Square) : Bitboard := Z.shiftl 1 s.

Definition BB_FILE_A : Bitboard := 0x0101010101010101.
Definition BB_FILE (i : Z) : Bitboard := Z.shiftl BB_FILE_A i.
Definition BB_RANK_1 : Bitboard := 0xff.
Definition BB_RANK (i : Z) : Bitboard := Z.shiftl BB_RANK_1 (8 * i).

Definition square_file (s : Square) : Z := Z.land s 7.
Definition square_rank (s : Square) : Z := Z.shiftr s 3.
Definition square (file rank : Z) : Square := rank * 8 + file.

Definition SQUARES : list Square := map Z.of_nat (seq 0 64).

(** Membership and iteration of a square set: iteration scans the mask from
    the lowest square upwards. *)
Definition bb_mem (s : Square) (bb : Bitboard) : bool :=
  negb (Z.land (BB_SQUARE s) bb =? 0).
Definition scan_forward (bb : Bitboard) : list Square :=
  filter (fun s => Z.testbit bb s) SQUARES.
Definition bb_of_list (l : list Square) : Bitboard :=
  fold_right (fun s acc => Z.lor (BB_SQUARE s) acc) 0 l.

(** [SquareSet(x)] for an integer [x] keeps the low 64 bits of [x] as the
    mask; the operators [&] and [|=] of a square set first turn their
    right operand into a square set this way, so an integer operand is
    always read as a mask. *)
Definition SquareSet (x : Z) : Bitboard := Z.land x BB_ALL.
Definition sqs_and (a : Bitboard) (x : Z) : Bitboard := Z.land (SquareSet x) a.
Definition sqs_ior (a : Bitboard) (x : Z) : Bitboard := Z.lor a (SquareSet x).

Definition A1 : Square := 0.
Definition B1 : Square := 1.
Definition C1 : Square := 2.
Definition D1 : Square := 3.
Definition E1 : Square := 4.
Definition F1 : Square := 5.
Definition G1 : Square := 6.
Definition H1 : Square := 7.
Definition A2 : Square := 8.
Definition E2 : Square := 12.
Definition A3 : Square := 16.
Definition E3 : Square := 20.
Definition F3 : Square := 21.
Definition E4 : Square := 28.
Definition D5 : Square := 35.
Definition E5 : Square := 36.
Definition F5 : Square := 37.
Definition A8 : Square := 56.
Definition B8 : Square := 57.
Definition C8 : Square := 58.
Definition D8 : Square := 59.
Definition E8 : Square := 60.
Definition F8 : Square := 61.
Definition G8 : Square := 62.
Definition H8 : Square := 63.

(** ** Pieces *)

Inductive PieceType : Type := PAWN | KNIGHT | BISHOP | ROOK | QUEEN | KING.

Definition PieceType_eqb (a b : PieceType) : bool :=
  match a, b with
  | PAWN, PAWN | KNIGHT, KNIGHT | BISHOP, BISHOP
  | ROOK, ROOK | QUEEN, QUEEN | KING, KING => true
  | _, _ => false
  end.

Record Piece : Type := mkPiece { piece_type : PieceType; color : Color }.

Definition Piece_eqb (p q : Piece) : bool :=
  PieceType_eqb (piece_type p) (piece_type q) && Bool.eqb (color p) (color q).

Record Move : Type := mkMove {
  from_square : Square;
  to_square : Square;
  promotion : option PieceType
}.

(** ** Dictionaries of [candidate_moves.py] *)

Fixpoint dict_get {V} (d : list (string * V)) (k : string) : option V :=
  match d with
  | [] => None
  | (k', v) :: d' => if String.eqb k k' then Some v else dict_get d' k
  end.
Definition dict_in {V} (d : list (string * V)) (k : string) : bool :=
  match dict_get d k with Some _ => true | None => false end.
(** [d[k]], a [KeyError] when the key is missing. *)
Definition dict_index {V} (d : list (string * V)) (k : string) : result V :=
  match dict_get d k with Some v => Ok v | None => Raise KeyError end.

Definition PIECES : list (string * PieceType) :=
  [("pawn", PAWN); ("knight", KNIGHT); ("bishop", BISHOP);
   ("rook", ROOK); ("queen", QUEEN); ("king", KING)].
Definition FILES : list (string * Bitboard) :=
  [("a", BB_FILE 0); ("b", BB_FILE 1); ("c", BB_FILE 2); ("d", BB_FILE 3);
   ("e", BB_FILE 4); ("f", BB_FILE 5); ("g", BB_FILE 6); ("h", BB_FILE 7)].
Definition RANKS : list (string * Bitboard) :=
  [("1", BB_RANK 0); ("2", BB_RANK 1); ("3", BB_RANK 2); ("4", BB_RANK 3);
   ("5", BB_RANK 4); ("6", BB_RANK 5); ("7", BB_RANK 6); ("8", BB_RANK 7)].

(** ** Attack geometry of the rules engine

    The engine's attack tables are generated by walking from a square in
    steps of a fixed delta until the walk leaves the board, wraps around an
    edge, or (for sliders) has just entered an occupied square. *)

Definition square_distance (a b : Square) : Z :=
  Z.max (Z.abs (square_file a - square_file b))
        (Z.abs (square_rank a - square_rank b)).

Fixpoint slide (fuel : nat) (sq : Square) (occupied : Bitboard) (delta : Z)
  : Bitboard :=
  match fuel with
  | O => 0
  | S fuel' =>
      let sq' := sq + delta in
      if negb ((0 <=? sq') && (sq' <? 64)) || (2 <? square_distance sq' sq)
      then 0
      else Z.lor (BB_SQUARE sq')
             (if negb (Z.land occupied (BB_SQUARE sq') =? 0) then 0
              else slide fuel' sq' occupied delta)
  end.

Definition sliding_attacks (sq : Square) (occupied : Bitboard)
  (deltas : list Z) : Bitboard :=
  fold_right (fun d acc => Z.lor (slide 8 sq occupied d) acc) 0 deltas.
Definition step_attacks (sq : Square) (deltas : list Z) : Bitboard :=
  sliding_attacks sq BB_ALL deltas.

Definition KNIGHT_DELTAS : list Z := [17; 15; 10; 6; -17; -15; -10; -6].
Definition KING_DELTAS : list Z := [9; 8; 7; 1; -9; -8; -7; -1].
Definition DIAG_DELTAS : list Z := [-9; -7; 7; 9].
Definition FILE_DELTAS : list Z := [-8; 8].
Definition RANK_DELTAS : list Z := [-1; 1].

Definition pawn_attacks (c : Color) (sq : Square) : Bitboard :=
  step_attacks sq (if c then [7; 9] else [-7; -9]).
Definition diag_attacks (sq : Square) (occ : Bitboard) : Bitboard :=
  sliding_attacks sq occ DIAG_DELTAS.
Definition file_attacks (sq : Square) (occ : Bitboard) : Bitboard :=
  sliding_attacks sq occ FILE_DELTAS.
Definition rank_attacks (sq : Square) (occ : Bitboard) : Bitboard :=
  sliding_attacks sq occ RANK_DELTAS.

(** Squares attacked by piece [p] standing on [sq] when [occ] is the set of
    occupied squares. *)
Definition attacks_of (p : Piece) (sq : Square) (occ : Bitboard) : Bitboard :=
  match piece_type p with
  | PAWN => pawn_attacks (color p) sq
  | KNIGHT => step_attacks sq KNIGHT_DELTAS
  | KING => step_attacks sq KING_DELTAS
  | BISHOP => diag_attacks sq occ
  | ROOK => Z.lor (rank_attacks sq occ) (file_attacks sq occ)
  | QUEEN => Z.lor (diag_attacks sq occ)
                   (Z.lor (rank_attacks sq occ) (file_attacks sq occ))
  end.

(** The line through two squares, and the squares strictly between them. *)
Definition ray (a b : Square) : Bitboard :=
  if bb_mem b (diag_attacks a 0)
  then Z.lor (Z.lor (Z.land (diag_attacks a 0) (diag_attacks b 0))
                    (BB_SQUARE a)) (BB_SQUARE b)
  else if bb_mem b (rank_attacks a 0) then Z.lor (rank_attacks a 0) (BB_SQUARE a)
  else if bb_mem b (file_attacks a 0) then Z.lor (file_attacks a 0) (BB_SQUARE a)
  else 0.

Definition between (a b : Square) : Bitboard :=
  let bb := Z.land (ray a b)
              (Z.lxor (Z.shiftl BB_ALL a) (Z.shiftl BB_ALL b)) in
  Z.land bb (bb - 1).

Definition FILE_NAMES : list string := ["a"; "b"; "c"; "d"; "e"; "f"; "g"; "h"].
Definition RANK_NAMES : list string := ["1"; "2"; "3"; "4"; "5"; "6"; "7"; "8"].
Definition file_name (s : Square) : string :=
  nth (Z.to_nat (square_file s)) FILE_NAMES "".
Definition rank_name (s : Square) : string :=
  nth (Z.to_nat (square_rank s)) RANK_NAMES "".
Definition square_name (s : Square) : string :=
  String.append (file_name s) (rank_name s).

(** ** The rules engine, as the code uses it

    [find_move] and [parse_san] answer [None] where the engine raises
    [ValueError] (no such legal move), [peek] answers [None] where the engine
    raises [IndexError] (empty move stack).  Every operation but [push] is a
    query: it leaves the board as it found it. *)

Class RulesEngine (Board : Type) : Type := {
  piece_at : Board -> Square -> option Piece;
  turn : Board -> Color;
  find_move : Board -> Square -> Square -> option PieceType -> option Move;
  is_capture : Board -> Move -> bool;
  is_attacked_by : Board -> Color -> Square -> bool;
  pin : Board -> Color -> Square -> Bitboard;
  is_check : Board -> bool;
  has_kingside_castling_rights : Board -> Color -> bool;
  has_queenside_castling_rights : Board -> Color -> bool;
  parse_san : Board -> string -> option Move;
  peek : Board -> option Move;
  push : Board -> Move -> Board;
  san : Board -> Move -> string
}.

(** ** [candidate_moves.py] *)

Definition is_possible_move (piece : option Piece)
  (from_square to_square : Square) : result bool :=
  match piece with
  | None => Raise AttributeError
  | Some piece =>
      if PieceType_eqb (piece_type piece) PAWN then
        let bb_from_square := SquareSet (BB_SQUARE from_square) in
        let bb_to_square := SquareSet (BB_SQUARE to_square) in
        let legal_advances :=
          if Bool.eqb (color piece) WHITE
          then Z.lor (Z.shiftl bb_from_square 8)
                     (Z.land (Z.shiftl bb_from_square 16) (BB_RANK 3))
          else Z.lor (Z.shiftr bb_from_square 8)
                     (Z.land (Z.shiftr bb_from_square 16) (BB_RANK 4)) in
        Ok (negb (Z.land legal_advances bb_to_square =? 0))
      else
        (* a lone piece on an otherwise empty board *)
        Ok (bb_mem to_square
              (attacks_of piece from_square (BB_SQUARE from_square)))
  end.

Definition truthy (o : option string) : bool :=
  match o with Some s => negb (String.eqb s "") | None => false end.
Definition is_some {A} (o : option A) : bool :=
  match o with Some _ => true | None => false end.
Definition opt_string_eqb (a b : option string) : bool :=
  match a, b with
  | Some x, Some y => String.eqb x y
  | None, None => true
  | _, _ => false
  end.

Record SpecificSquares : Type := mkSpecificSquares {
  ss_color : Color;
  ss_piece : option string;
  ss_file : option string;
  ss_rank : option string
}.

Definition opt_in {V} (d : list (string * V)) (o : option string) : bool :=
  match o with None => true | Some k => dict_in d k end.

(** The constructor, with its three assertions. *)
Definition SpecificSquares_init (color : Color)
  (piece file rank : option string) : result SpecificSquares :=
  if negb (opt_in PIECES piece) then Raise AssertionError
  else if negb (opt_in FILES file) then Raise AssertionError
  else if negb (opt_in RANKS rank) then Raise AssertionError
  else Ok (mkSpecificSquares color piece file rank).

(** [__bool__]: [not (piece == file == rank is None)] *)
Definition ss_bool (self : SpecificSquares) : bool :=
  negb (opt_string_eqb (ss_piece self) (ss_file self)
        && opt_string_eqb (ss_file self) (ss_rank self)
        && negb (is_some (ss_rank self))).

Definition opt_index {V} (d : list (string * V)) (o : option string)
  : result V :=
  match o with Some k => dict_index d k | None => Raise KeyError end.

Record RejectedMove : Type := mkRejectedMove {
  rm_from_square : Square;
  rm_to_square : Square;
  rm_possible : bool;
  rm_captures : bool;
  rm_blocking_pieces : Bitboard;
  rm_still_in_check : bool;
  rm_absolute_pin : bool
}.

(** Attributes of a [CastleMove] other than [side] and [in_check] are only
    assigned on some paths of the constructor: [None] is an attribute that
    was never assigned, and reading it raises [AttributeError]. *)
Record CastleMove : Type := mkCastleMove {
  cm_side : string;
  cm_in_check : bool;
  cm_right_to_castle : option bool;
  cm_blocking_pieces : option Bitboard;
  cm_through_check : option bool;
  cm_into_check : option bool
}.

Definition getattr {A} (o : option A) : result A :=
  match o with Some a => Ok a | None => Raise AttributeError end.

Record CommandMove : Type := mkCommandMove {
  from_where : SpecificSquares;
  to_where : SpecificSquares;
  captures : bool;
  promotes_to : option string;
  candidate_moves : list Move;
  rejected_moves : list RejectedMove
}.

Record CastleCommand : Type := mkCastleCommand {
  side : option string;
  castle_candidate_moves : list Move;
  castle_rejected_moves : list CastleMove
}.

Inductive BoardCommand : Type :=
| Directional (c : CommandMove)
| Castle (c : CastleCommand).

Definition command_candidates (c : BoardCommand) : list Move :=
  match c with
  | Directional c => candidate_moves c
  | Castle c => castle_candidate_moves c
  end.
Definition command_has_rejects (c : BoardCommand) : bool :=
  match c with
  | Directional c => negb (Nat.eqb (List.length (rejected_moves c)) 0)
  | Castle c => negb (Nat.eqb (List.length (castle_rejected_moves c)) 0)
  end.

(** [for x in l: acc = body x acc] *)
Fixpoint for_each {S A Acc} (l : list A) (body : A -> Acc -> M S Acc)
  (acc : Acc) : M S Acc :=
  match l with
  | [] => ret acc
  | x :: l' => acc' <- body x acc ;; for_each l' body acc'
  end.

Section CandidateMoves.
Context {Board : Type} `{RulesEngine Board}.

(** [board.pieces(piece_type, color)]: the squares holding that piece. *)
Definition pieces (b : Board) (pt : PieceType) (c : Color) : Bitboard :=
  bb_of_list
    (filter (fun s => match piece_at b s with
                      | Some p => Piece_eqb p (mkPiece pt c)
                      | None => false
                      end) SQUARES).

Definition blocking_squares (from_square to_square : Square)
  : M Board Bitboard :=
  from_piece <- gets (fun b => piece_at b from_square) ;;
  to_piece <- gets (fun b => piece_at b to_square) ;;
  possible <- lift_result (is_possible_move from_piece from_square to_square) ;;
  if possible : bool then
    piece_squares <-
      for_each (scan_forward (between from_square to_square))
        (fun square piece_squares =>
           occupant <- gets (fun b => piece_at b square) ;;
           if is_some occupant then ret (sqs_ior piece_squares square)
           else ret piece_squares) (SquareSet 0) ;;
    match to_piece with
    | Some tp =>
        fc <- lift_result (rbind (getattr from_piece) (fun p => Ok (color p))) ;;
        if Bool.eqb fc (color tp) then ret (sqs_ior piece_squares to_square)
        else ret piece_squares
    | None => ret piece_squares
    end
  else ret (SquareSet 0).

Definition find_candidate_squares (self : SpecificSquares)
  : M Board Bitboard :=
  let piece_squares := BB_ALL in
  let file_squares := BB_ALL in
  let rank_squares := BB_ALL in
  let rest file_squares :=
    piece_squares <-
      (if truthy (ss_piece self) then
         pt <- lift_result (opt_index PIECES (ss_piece self)) ;;
         gets (fun b => pieces b pt (ss_color self))
       else ret piece_squares) ;;
    rank_squares <-
      (if truthy (ss_rank self)
       then lift_result (opt_index RANKS (ss_rank self))
       else ret rank_squares) ;;
    ret (sqs_and (sqs_and (SquareSet piece_squares) file_squares) rank_squares)
  in
  if truthy (ss_file self) then
    file_squares <- lift_result (opt_index FILES (ss_file self)) ;;
    if negb (truthy (ss_piece self)) && negb (truthy (ss_rank self)) then
      pawn_squares <- gets (fun b => pieces b PAWN (ss_color self)) ;;
      ret (sqs_and pawn_squares file_squares)
    else rest file_squares
  else rest file_squares.

Definition RejectedMove_init (from_square to_square : Square)
  : M Board RejectedMove :=
  from_piece <- gets (fun b => piece_at b from_square) ;;
  to_piece <- gets (fun b => piece_at b to_square) ;;
  possible <- lift_result (is_possible_move from_piece from_square to_square) ;;
  blocking_pieces <- blocking_squares from_square to_square ;;
  let captures := is_some to_piece in
  still_in_check <-
    gets (fun b => is_attacked_by b (negb (turn b)) to_square) ;;
  fp <- lift_result (getattr from_piece) ;;
  pinned <- gets (fun b => pin b (color fp) from_square) ;;
  ret (mkRejectedMove from_square to_square possible captures
         blocking_pieces still_in_check (negb (pinned =? BB_ALL))).

Definition castle_conditions (self : CastleMove)
  (from_square through_square to_square : Square) : M Board CastleMove :=
  self <-
    (if String.eqb (cm_side self) "king" then
       r <- gets (fun b => has_kingside_castling_rights b (turn b)) ;;
       ret (mkCastleMove (cm_side self) (cm_in_check self) (Some r)
              (cm_blocking_pieces self) (cm_through_check self)
              (cm_into_check self))
     else if String.eqb (cm_side self) "queen" then
       r <- gets (fun b => has_queenside_castling_rights b (turn b)) ;;
       ret (mkCastleMove (cm_side self) (cm_in_check self) (Some r)
              (cm_blocking_pieces self) (cm_through_check self)
              (cm_into_check self))
     else ret self) ;;
  right_to_castle <- lift_result (getattr (cm_right_to_castle self)) ;;
  if right_to_castle : bool then
    blocking <- blocking_squares from_square through_square ;;
    occupant <- gets (fun b => piece_at b to_square) ;;
    let blocking :=
      if is_some occupant then sqs_ior blocking to_square else blocking in
    through_check <-
      gets (fun b => is_attacked_by b (negb (turn b)) through_square) ;;
    into_check <-
      gets (fun b => is_attacked_by b (negb (turn b)) to_square) ;;
    ret (mkCastleMove (cm_side self) (cm_in_check self)
           (cm_right_to_castle self) (Some blocking)
           (Some through_check) (Some into_check))
  else ret self.

Definition CastleMove_init (side : string) : M Board CastleMove :=
  in_check <- gets is_check ;;
  let self := mkCastleMove side in_check None None None None in
  white <- gets (fun b => Bool.eqb (turn b) WHITE) ;;
  if String.eqb side "king" then
    if white : bool then castle_conditions self E1 F1 G1
    else castle_conditions self E8 F8 G8
  else if String.eqb side "queen" then
    if white : bool then castle_conditions self E1 D1 C1
    else castle_conditions self E8 D8 C8
  else ret self.

Definition CommandMove_init (from_where to_where : SpecificSquares)
  (say_takes : bool) (say_promotes : option string) : CommandMove :=
  mkCommandMove from_where to_where say_takes say_promotes [] [].

(** The body of the two nested loops of [CommandMove.consider_moves]:
    what is done for one origin and one destination square. *)
Definition consider_pair (captures : bool) (promote_piece : option PieceType)
  (from_square to_square : Square)
  (acc : list Move * list RejectedMove)
  : M Board (list Move * list RejectedMove) :=
  let '(candidates, rejects) := acc in
  try_except_ValueError
    (found <- gets (fun b => find_move b from_square to_square promote_piece) ;;
     match found with
     | None => raise ValueError
     | Some candidate =>
         is_cap <- gets (fun b => is_capture b candidate) ;;
         if captures && negb is_cap then raise ValueError
         else ret (candidates ++ [candidate], rejects)
     end)
    (reject <- RejectedMove_init from_square to_square ;;
     ret (candidates, rejects ++ [reject])).

Definition consider_moves (self : CommandMove) : M Board CommandMove :=
  from_squares <- find_candidate_squares (from_where self) ;;
  to_squares <- find_candidate_squares (to_where self) ;;
  let promote_piece :=
    match promotes_to self with
    | Some k => dict_get PIECES k
    | None => None
    end in
  lists <-
    for_each (scan_forward from_squares)
      (fun from_square acc =>
         for_each (scan_forward to_squares)
           (fun to_square acc =>
              consider_pair (captures self) promote_piece
                from_square to_square acc) acc)
      ([], []) ;;
  ret (mkCommandMove (from_where self) (to_where self) (captures self)
         (promotes_to self) (fst lists) (snd lists)).

Definition CastleCommand_init (side : option string) : result CastleCommand :=
  match side with
  | None => Ok (mkCastleCommand side [] [])
  | Some s =>
      if String.eqb s "king" || String.eqb s "queen"
      then Ok (mkCastleCommand side [] [])
      else Raise AssertionError
  end.

Definition castle_try (wanted : string) (notation : string)
  (side : option string) (acc : list Move * list CastleMove)
  : M Board (list Move * list CastleMove) :=
  let '(candidates, rejects) := acc in
  try_except_ValueError
    (if opt_string_eqb side (Some wanted) || negb (truthy side) then
       found <- gets (fun b => parse_san b notation) ;;
       match found with
       | None => raise ValueError
       | Some m => ret (candidates ++ [m], rejects)
       end
     else ret (candidates, rejects))
    (reject <- CastleMove_init wanted ;;
     ret (candidates, rejects ++ [reject])).

Definition castle_consider_moves (self : CastleCommand)
  : M Board CastleCommand :=
  acc <- castle_try "king" "O-O" (side self) ([], []) ;;
  acc <- castle_try "queen" "O-O-O" (side self) acc ;;
  ret (mkCastleCommand (side self) (fst acc) (snd acc)).

Definition take_last (taker : SpecificSquares)
  (say_promotes : option string) : M Board CommandMove :=
  last <- gets peek ;;
  match last with
  | None => raise IndexError
  | Some m =>
      let takee_square := to_square m in
      t <- gets turn ;;
      takee <- lift_result
                 (SpecificSquares_init t None
                    (Some (file_name takee_square))
                    (Some (rank_name takee_square))) ;;
      ret (CommandMove_init taker takee true say_promotes)
  end.
End CandidateMoves.

(** ** [request_assistant.py] *)

Definition TAKE_TOKENS : list string := ["takes"; "captures"].
Definition PROMOTE_TOKENS : list string := ["promote"; "equals"].
Definition KINGSIDE_TOKENS : list string := ["king"; "short"].
Definition QUEENSIDE_TOKENS : list string := ["queen"; "long"].

Definition WRITTEN_NUMS : list (string * string) :=
  [("one", "1"); ("two", "2"); ("three", "3"); ("four", "4");
   ("five", "5"); ("six", "6"); ("seven", "7"); ("eight", "8")].

Definition str_in (k : string) (l : list string) : bool :=
  existsb (String.eqb k) l.
(** [set(tokens) & other] is non-empty *)
Definition intersects (tokens other : list string) : bool :=
  existsb (fun t => str_in t other) tokens.

(** One pass of the [for] loop of [locations_in_tokens] over the tokens
    from index [i] on; [recurse] is the function itself, one frame deeper. *)
Fixpoint scan_tokens
  (recurse : list string -> bool -> result (list SpecificSquares))
  (tokens : list string) (turn : bool)
  (i : nat) (rest : list string) (loc : SpecificSquares)
  : result (SpecificSquares * list SpecificSquares) :=
  match rest with
  | [] => Ok (loc, [])
  | token :: rest' =>
      if dict_in PIECES token && negb (ss_bool loc) then
        scan_tokens recurse tokens turn (S i) rest'
          (mkSpecificSquares (ss_color loc) (Some token) (ss_file loc) (ss_rank loc))
      else if String.eqb token "on" then
        scan_tokens recurse tokens turn (S i) rest' loc
      else if dict_in FILES token && negb (truthy (ss_file loc))
              && negb (truthy (ss_rank loc)) then
        scan_tokens recurse tokens turn (S i) rest'
          (mkSpecificSquares (ss_color loc) (ss_piece loc) (Some token) (ss_rank loc))
      else if dict_in WRITTEN_NUMS token && negb (truthy (ss_rank loc)) then
        scan_tokens recurse tokens turn (S i) rest'
          (mkSpecificSquares (ss_color loc) (ss_piece loc) (ss_file loc)
             (dict_get WRITTEN_NUMS token))
      else
        let i := if negb (dict_in PIECES token || dict_in FILES token
                          || dict_in RANKS token)
                 then S i else i in
        rbind (recurse (skipn i tokens) (negb turn))
              (fun more => Ok (loc, more))
  end.

(** [depth] is the number of frames the interpreter still allows: the
    function calls itself, and a call at depth 0 is a [RecursionError]. *)
Fixpoint locations_in_tokens (depth : nat) (tokens : list string)
  (turn : bool) : result (list SpecificSquares) :=
  match depth with
  | O => Raise RecursionError
  | S depth' =>
      match tokens with
      | [] => Ok []
      | _ =>
          rbind (scan_tokens (locations_in_tokens depth') tokens turn
                   0%nat tokens (mkSpecificSquares turn None None None))
            (fun r => Ok (if ss_bool (fst r) then fst r :: snd r else snd r))
      end
  end.

(** [str.split()]: maximal runs of non-whitespace characters. *)
Definition is_space (c : ascii) : bool :=
  let n := nat_of_ascii c in
  (Nat.eqb n 32 || (Nat.leb 9 n && Nat.leb n 13)
   || (Nat.leb 28 n && Nat.leb n 31))%bool.

Fixpoint split_from (cur : string) (s : string) : list string :=
  match s with
  | EmptyString => if String.eqb cur "" then [] else [cur]
  | String c s' =>
      if is_space c
      then (if String.eqb cur "" then split_from "" s'
            else cur :: split_from "" s')
      else split_from (String.append cur (String c EmptyString)) s'
  end.
Definition split (s : string) : list string := split_from "" s.

Inductive Parsed : Type :=
| Inquiry (request : string)
| Command (c : BoardCommand).

(** [l[n]] *)
Definition index {A} (l : list A) (n : nat) : result A :=
  match nth_error l n with Some a => Ok a | None => Raise IndexError end.

Section RequestAssistant.
Context {Board : Type} `{RulesEngine Board}.

Definition decipher_request (depth : nat) (request : string)
  : M Board Parsed :=
  if String.eqb request "why" then ret (Inquiry request) else
  let tokens := split request in
  if str_in "castle" tokens then
    castle_command <- lift_result
      (if intersects tokens KINGSIDE_TOKENS then CastleCommand_init (Some "king")
       else if intersects tokens QUEENSIDE_TOKENS
            then CastleCommand_init (Some "queen")
            else CastleCommand_init None) ;;
    castle_command <- castle_consider_moves castle_command ;;
    ret (Command (Castle castle_command))
  else
  let does_take := intersects tokens TAKE_TOKENS in
  let does_promote := intersects tokens PROMOTE_TOKENS in
  say_promotes <-
    (if does_promote
     then (t <- lift_result (index tokens (List.length tokens - 1)) ;;
           ret (Some t))
     else ret None) ;;
  turn0 <- gets turn ;;
  locations <- lift_result
    (if does_promote
     then locations_in_tokens depth (removelast tokens) turn0
     else locations_in_tokens depth tokens turn0) ;;
  command_move <-
    (if Nat.eqb (List.length locations) 1 then
       loc0 <- lift_result (index locations 0) ;;
       if truthy (ss_file loc0) && truthy (ss_rank loc0) then
         let to_where := loc0 in
         let from_piece :=
           if truthy (ss_piece to_where) then ss_piece to_where
           else Some "pawn" in
         t <- gets turn ;;
         from_where <- lift_result (SpecificSquares_init t from_piece None None) ;;
         t <- gets turn ;;
         let to_where :=
           mkSpecificSquares (negb t) None (ss_file to_where) (ss_rank to_where) in
         ret (CommandMove_init from_where to_where does_take say_promotes)
       else if does_take then take_last loc0 say_promotes
       else raise AssertionError
     else
       loc0 <- lift_result (index locations 0) ;;
       loc1 <- lift_result (index locations 1) ;;
       ret (CommandMove_init loc0 loc1 does_take say_promotes)) ;;
  command_move <- consider_moves command_move ;;
  ret (Command (Directional command_move)).
End RequestAssistant.

(** ** [feedback_assistant.py] and [voice_control.py]

    The store of the running program: the one board every command refers to,
    what the assistant has said so far, and the two module-level variables
    of [voice_control.py]. *)

Record World (Board : Type) : Type := mkWorld {
  w_board : Board;
  w_spoken : list string;
  last_spoken_command : option string;
  last_board_command : option BoardCommand
}.
Arguments mkWorld {Board}.

Definition PIECE_SYMBOLS : list (string * string) :=
  [("N", "knight"); ("B", "bishop"); ("R", "rook"); ("Q", "queen");
   ("K", "king")].

Fixpoint join (sep : string) (l : list string) : string :=
  match l with
  | [] => ""
  | [x] => x
  | x :: l' => String.append x (String.append sep (join sep l'))
  end.
Fixpoint chars (s : string) : list string :=
  match s with
  | EmptyString => []
  | String c s' => String c EmptyString :: chars s'
  end.
Definition str_of (o : option string) : string :=
  match o with Some s => s | None => "None" end.
Definition piece_name (pt : PieceType) : string :=
  match pt with
  | PAWN => "pawn" | KNIGHT => "knight" | BISHOP => "bishop"
  | ROOK => "rook" | QUEEN => "queen" | KING => "king"
  end.

(** Every element is tested, as [list(filter(...))] does; the first
    attribute that was never assigned raises. *)
Fixpoint filter_r {A} (f : A -> result bool) (l : list A) : result (list A) :=
  match l with
  | [] => Ok []
  | x :: l' =>
      rbind (f x) (fun keep =>
      rbind (filter_r f l') (fun rest =>
      Ok (if keep : bool then x :: rest else rest)))
  end.

Section Feedback.
Context {Board : Type} `{RulesEngine Board}.

Definition on_board {A} (m : M Board A) : M (World Board) A :=
  fun w => let (r, b) := m (w_board w) in
           (r, mkWorld b (w_spoken w) (last_spoken_command w)
                 (last_board_command w)).

Definition assistant (text : string) : M (World Board) unit :=
  modify (fun w => mkWorld (w_board w) (w_spoken w ++ [text])
                     (last_spoken_command w) (last_board_command w)).

Definition speak_move (move : Move) : M (World Board) unit :=
  notation <- on_board (gets (fun b => san b move)) ;;
  if String.eqb notation "O-O" then assistant "Kingside castles."
  else if String.eqb notation "O-O-O" then assistant "Queenside castles."
  else
    let move_chars :=
      map (fun char =>
             match dict_get PIECE_SYMBOLS char with
             | Some name => name
             | None =>
                 if String.eqb char "x" then "takes"
                 else if String.eqb char "=" then "equals"
                 else if String.eqb char "+" then "check"
                 else if String.eqb char "#" then "checkmate"
                 else char
             end) (chars notation) in
    assistant (join " " move_chars).

Definition explain_why_ambiguous (command : BoardCommand)
  : M (World Board) unit :=
  for_each (command_candidates command)
    (fun move _ => speak_move move) tt.

Definition explain_broken_condition (introduction : string)
  (moves : list RejectedMove) : M (World Board) unit :=
  match moves with
  | [] => ret tt
  | _ =>
      assistant introduction ;;;
      for_each moves
        (fun move _ =>
           occupant <- on_board (gets (fun b => piece_at b (rm_from_square move))) ;;
           p <- lift_result (getattr occupant) ;;
           assistant
             (String.append "The "
             (String.append (piece_name (piece_type p))
             (String.append " on "
             (String.append (square_name (rm_from_square move))
             (String.append " to " (square_name (rm_to_square move))))))))
        tt
  end.

Definition explain_no_moves (command_move : CommandMove)
  : M (World Board) unit :=
  let rejects := rejected_moves command_move in
  let possible_moves := filter rm_possible rejects in
  match possible_moves with
  | [] => assistant "The piece you're trying to move cannot move like that."
  | _ =>
      if captures command_move then
        explain_broken_condition "The following moves are non-captures:"
          (filter (fun move => negb (rm_captures move)) rejects) ;;;
        explain_broken_condition "The following moves are blocked by pieces:"
          (filter (fun move => negb (rm_blocking_pieces move =? 0)) rejects) ;;;
        explain_broken_condition
          "The following moves leave your king in check:"
          (filter rm_still_in_check rejects) ;;;
        explain_broken_condition
          "The following moves cannot be made because the piece is pinned to the king:"
          (filter rm_absolute_pin rejects)
      else ret tt
  end.

(** [if len(list(filter(test, rejects))): assistant(sentence)] *)
Definition say_if_any (test : CastleMove -> result bool)
  (rejects : list CastleMove) (sentence : string) : M (World Board) unit :=
  matching <- lift_result (filter_r test rejects) ;;
  match matching with
  | [] => ret tt
  | _ => assistant sentence
  end.

Definition explain_no_castle (castle_command : CastleCommand)
  : M (World Board) unit :=
  let rejects := castle_rejected_moves castle_command in
  no_right <- lift_result
    (filter_r (fun move => rbind (getattr (cm_right_to_castle move))
                             (fun r => Ok (negb r))) rejects) ;;
  match no_right with
  | _ :: _ => assistant "You have already moved your king or rook."
  | [] =>
      say_if_any (fun move => rbind (getattr (cm_blocking_pieces move))
                                (fun bb => Ok (negb (bb =? 0))))
        rejects "The path between your king and rook is not clear of pieces." ;;;
      say_if_any (fun move => Ok (cm_in_check move))
        rejects "Your king is still in check." ;;;
      say_if_any (fun move => getattr (cm_through_check move))
        rejects "You're attempting to castle through check." ;;;
      say_if_any (fun move => getattr (cm_into_check move))
        rejects "You're attempting to castle into check."
  end.

Definition explain_rejected_moves (command : BoardCommand)
  : M (World Board) unit :=
  match command with
  | Directional c => explain_no_moves c
  | Castle c => explain_no_castle c
  end.

Definition respond_to_command (command : BoardCommand)
  : M (World Board) unit :=
  modify (fun w => mkWorld (w_board w) (w_spoken w)
                     (last_spoken_command w) (Some command)) ;;;
  let candidates := command_candidates command in
  match candidates with
  | _ :: _ =>
      if Nat.eqb (List.length candidates) 1 then
        c0 <- lift_result (index candidates 0) ;;
        speak_move c0 ;;;
        c0 <- lift_result (index candidates 0) ;;
        modify (fun w => mkWorld (push (w_board w) c0) (w_spoken w)
                           (last_spoken_command w) (last_board_command w))
      else
        spoken <- gets (@last_spoken_command Board) ;;
        assistant (String.append "The command "
                  (String.append (str_of spoken)
                     " is ambiguous. Could you be more specific?"))
  | [] =>
      if command_has_rejects command then
        spoken <- gets (@last_spoken_command Board) ;;
        assistant (String.append "The command "
                  (String.append (str_of spoken)
                     " does not match any legal moves."))
      else ret tt
  end.

Definition respond_to_inquiry (inquiry : string) : M (World Board) unit :=
  if String.eqb inquiry "why" then
    last <- gets (@last_board_command Board) ;;
    command <- lift_result (getattr last) ;;
    match command_candidates command with
    | _ :: _ =>
        spoken <- gets (@last_spoken_command Board) ;;
        assistant (String.append "Legal moves fully matching "
                  (String.append (str_of spoken) " include:")) ;;;
        explain_why_ambiguous command
    | [] => explain_rejected_moves command
    end
  else ret tt.

Definition respond_to_request (parsed_request : Parsed)
  : M (World Board) unit :=
  match parsed_request with
  | Command c => respond_to_command c
  | Inquiry q => respond_to_inquiry q
  end.
End Feedback.

(** ** A reference rules engine

    Standard chess as the engine the code imports plays it: piece placement,
    side to move, castling rights, en-passant square, clocks and the move
    stack; attack and pin queries on bitboards; legality as pseudo-legality
    plus king safety; castling written king-to-g/c-file. *)

Module RefEngine.

Record Position : Type := mkPosition {
  placement : list (option Piece);
  side_to_move : Color;
  castling_rights : Bitboard;
  ep_square : option Square;
  halfmove_clock : Z;
  fullmove_number : Z;
  move_stack : list Move
}.

Definition at_ (pl : list (option Piece)) (s : Square) : option Piece :=
  if (0 <=? s) && (s <? 64) then nth (Z.to_nat s) pl None else None.

Definition mask_of (pl : list (option Piece)) (f : Piece -> bool) : Bitboard :=
  bb_of_list
    (map fst (filter (fun sp => match snd sp with
                                | Some p => f p
                                | None => false
                                end) (combine SQUARES pl))).
Definition occupied pl : Bitboard := mask_of pl (fun _ => true).
Definition occupied_co pl (c : Color) : Bitboard :=
  mask_of pl (fun p => Bool.eqb (color p) c).
Definition of_type pl (pt : PieceType) : Bitboard :=
  mask_of pl (fun p => PieceType_eqb (piece_type p) pt).

Definition msb (bb : Bitboard) : option Square :=
  last (map Some (scan_forward bb)) None.
Definition scan_reversed (bb : Bitboard) : list Square :=
  rev (scan_forward bb).
Definition nonzero (bb : Bitboard) : bool := negb (bb =? 0).

Definition king pl (c : Color) : option Square :=
  msb (Z.land (occupied_co pl c) (of_type pl KING)).

Definition attackers_mask pl (c : Color) (sq : Square) (occ : Bitboard)
  : Bitboard :=
  let queens_and_rooks := Z.lor (of_type pl QUEEN) (of_type pl ROOK) in
  let queens_and_bishops := Z.lor (of_type pl QUEEN) (of_type pl BISHOP) in
  let attackers :=
    Z.lor (Z.land (step_attacks sq KING_DELTAS) (of_type pl KING))
    (Z.lor (Z.land (step_attacks sq KNIGHT_DELTAS) (of_type pl KNIGHT))
    (Z.lor (Z.land (rank_attacks sq occ) queens_and_rooks)
    (Z.lor (Z.land (file_attacks sq occ) queens_and_rooks)
    (Z.lor (Z.land (diag_attacks sq occ) queens_and_bishops)
           (Z.land (pawn_attacks (negb c) sq) (of_type pl PAWN)))))) in
  Z.land attackers (occupied_co pl c).

Definition attacked pl (c : Color) (sq : Square) : bool :=
  nonzero (attackers_mask pl c sq (occupied pl)).

Definition in_check pl (c : Color) : bool :=
  match king pl c with
  | Some k => attacked pl (negb c) k
  | None => false
  end.

Definition pin_mask pl (c : Color) (sq : Square) : Bitboard :=
  match king pl c with
  | None => BB_ALL
  | Some k =>
      let square_mask := BB_SQUARE sq in
      let rooks_queens := Z.lor (of_type pl ROOK) (of_type pl QUEEN) in
      let bishops_queens := Z.lor (of_type pl BISHOP) (of_type pl QUEEN) in
      let fix lines (l : list (Bitboard * Bitboard)) : Bitboard :=
        match l with
        | [] => BB_ALL
        | (rays, sliders) :: l' =>
            if nonzero (Z.land rays square_mask) then
              let snipers :=
                Z.land (Z.land rays sliders) (occupied_co pl (negb c)) in
              match find (fun sniper =>
                            Z.land (between sniper k)
                                   (Z.lor (occupied pl) square_mask)
                            =? square_mask) (scan_reversed snipers) with
              | Some sniper => ray k sniper
              | None => BB_ALL
              end
            else lines l'
        end in
      lines [(file_attacks k 0, rooks_queens);
             (rank_attacks k 0, rooks_queens);
             (diag_attacks k 0, bishops_queens)]
  end.

Definition set_at (pl : list (option Piece)) (s : Square) (o : option Piece)
  : list (option Piece) :=
  map (fun tp => if fst tp =? s then o else snd tp) (combine SQUARES pl).

Definition clean_castling_rights (b : Position) : Bitboard :=
  let pl := placement b in
  let castling := Z.land (castling_rights b) (of_type pl ROOK) in
  let white_castling :=
    Z.land (Z.land (Z.land castling (BB_RANK 0)) (occupied_co pl WHITE))
           (Z.lor (BB_SQUARE A1) (BB_SQUARE H1)) in
  let black_castling :=
    Z.land (Z.land (Z.land castling (BB_RANK 7)) (occupied_co pl BLACK))
           (Z.lor (BB_SQUARE A8) (BB_SQUARE H8)) in
  let king_home c sq :=
    nonzero (Z.land (Z.land (occupied_co pl c) (of_type pl KING)) (BB_SQUARE sq)) in
  Z.lor (if king_home WHITE E1 then white_castling else 0)
        (if king_home BLACK E8 then black_castling else 0).

Definition from_chess960 pl (f t : Square) (promo : option PieceType) : Move :=
  let kings := of_type pl KING in
  match promo with
  | None =>
      if (f =? E1) && nonzero (Z.land kings (BB_SQUARE E1)) then
        if t =? H1 then mkMove E1 G1 None
        else if t =? A1 then mkMove E1 C1 None
        else mkMove f t promo
      else if (f =? E8) && nonzero (Z.land kings (BB_SQUARE E8)) then
        if t =? H8 then mkMove E8 G8 None
        else if t =? A8 then mkMove E8 C8 None
        else mkMove f t promo
      else mkMove f t promo
  | Some _ => mkMove f t promo
  end.

Definition to_chess960 pl (m : Move) : Move :=
  let kings := of_type pl KING in
  let rooks := of_type pl ROOK in
  let f := from_square m in
  let t := to_square m in
  if (f =? E1) && nonzero (Z.land kings (BB_SQUARE E1)) then
    if (t =? G1) && negb (nonzero (Z.land rooks (BB_SQUARE G1)))
    then mkMove E1 H1 None
    else if (t =? C1) && negb (nonzero (Z.land rooks (BB_SQUARE C1)))
    then mkMove E1 A1 None
    else m
  else if (f =? E8) && nonzero (Z.land kings (BB_SQUARE E8)) then
    if (t =? G8) && negb (nonzero (Z.land rooks (BB_SQUARE G8)))
    then mkMove E8 H8 None
    else if (t =? C8) && negb (nonzero (Z.land rooks (BB_SQUARE C8)))
    then mkMove E8 A8 None
    else m
  else m.

Definition Move_eqb (m n : Move) : bool :=
  (from_square m =? from_square n) && (to_square m =? to_square n)
  && match promotion m, promotion n with
     | Some p, Some q => PieceType_eqb p q
     | None, None => true
     | _, _ => false
     end.

Definition attacked_for_king pl (c : Color) (path occ : Bitboard) : bool :=
  existsb (fun sq => nonzero (attackers_mask pl (negb c) sq occ))
          (scan_reversed path).

Definition generate_castling_moves (b : Position) : list Move :=
  let pl := placement b in
  let c := side_to_move b in
  let backrank := if c then BB_RANK 0 else BB_RANK 7 in
  match msb (Z.land (Z.land (occupied_co pl c) (of_type pl KING)) backrank) with
  | None => []
  | Some ksq =>
      let kingbb := BB_SQUARE ksq in
      flat_map
        (fun candidate =>
           let rook := BB_SQUARE candidate in
           let a_side := rook <? kingbb in
           let king_to := Z.land (if a_side then BB_FILE 2 else BB_FILE 6) backrank in
           let rook_to := Z.land (if a_side then BB_FILE 3 else BB_FILE 5) backrank in
           match msb king_to, msb rook_to with
           | Some kt, Some rt =>
               let king_path := between ksq kt in
               let rook_path := between candidate rt in
               let occ := occupied pl in
               if nonzero (Z.land (Z.lxor (Z.lxor occ kingbb) rook)
                             (Z.lor (Z.lor king_path rook_path)
                                    (Z.lor king_to rook_to)))
                  || attacked_for_king pl c (Z.lor king_path kingbb)
                       (Z.lxor occ kingbb)
                  || attacked_for_king pl c king_to
                       (Z.lxor (Z.lxor (Z.lxor occ kingbb) rook) rook_to)
               then []
               else [from_chess960 pl ksq candidate None]
           | _, _ => []
           end)
        (scan_reversed (Z.land (clean_castling_rights b) backrank))
  end.

Definition is_castling pl (c : Color) (m : Move) : bool :=
  nonzero (Z.land (of_type pl KING) (BB_SQUARE (from_square m)))
  && ((1 <? Z.abs (square_file (from_square m) - square_file (to_square m)))
      || nonzero (Z.land (Z.land (of_type pl ROOK) (occupied_co pl c))
                    (BB_SQUARE (to_square m)))).

Definition is_en_passant (b : Position) (m : Move) : bool :=
  let pl := placement b in
  match ep_square b with
  | Some ep =>
      (ep =? to_square m)
      && nonzero (Z.land (of_type pl PAWN) (BB_SQUARE (from_square m)))
      && ((Z.abs (to_square m - from_square m) =? 7)
          || (Z.abs (to_square m - from_square m) =? 9))
      && negb (nonzero (Z.land (occupied pl) (BB_SQUARE (to_square m))))
  | None => false
  end.

Definition promotes_properly (t : Square) (promo : option PieceType) : bool :=
  if (square_rank t =? 0) || (square_rank t =? 7) then
    match promo with
    | Some QUEEN | Some ROOK | Some BISHOP | Some KNIGHT => true
    | _ => false
    end
  else negb (is_some promo).

Definition pawn_pseudo_legal (b : Position) (m : Move) : bool :=
  let pl := placement b in
  let c := side_to_move b in
  let f := from_square m in
  let t := to_square m in
  let occ := occupied pl in
  let fwd := if c then 8 else -8 in
  let empty s := negb (nonzero (Z.land occ (BB_SQUARE s))) in
  let on_board s := (0 <=? s) && (s <? 64) in
  (bb_mem t (Z.land (pawn_attacks c f) (occupied_co pl (negb c)))
   && promotes_properly t (promotion m))
  || ((t =? f + fwd) && on_board t && empty t
      && promotes_properly t (promotion m))
  || ((t =? f + 2 * fwd) && on_board t && empty (f + fwd) && empty t
      && (square_rank t =? (if c then 3 else 4))
      && (square_rank f =? (if c then 1 else 6))
      && negb (is_some (promotion m)))
  || (match ep_square b with
      | Some ep =>
          (t =? ep) && empty ep
          && bb_mem f (pawn_attacks (negb c) ep)
          && (square_rank f =? (if c then 4 else 3))
          && negb (is_some (promotion m))
      | None => false
      end).

Definition is_pseudo_legal (b : Position) (m : Move) : bool :=
  let pl := placement b in
  let c := side_to_move b in
  match at_ pl (from_square m) with
  | None => false
  | Some p =>
      if negb (Bool.eqb (color p) c) then false
      else if negb (match promotion m with
                    | None => true
                    | Some _ =>
                        PieceType_eqb (piece_type p) PAWN
                        && (square_rank (to_square m) =? (if c then 7 else 0))
                    end) then false
      else if (if PieceType_eqb (piece_type p) KING
               then existsb (Move_eqb (from_chess960 pl (from_square m)
                                         (to_square m) None))
                            (generate_castling_moves b)
               else false) then true
      else if nonzero (Z.land (occupied_co pl c) (BB_SQUARE (to_square m)))
      then false
      else if PieceType_eqb (piece_type p) PAWN then pawn_pseudo_legal b m
      else bb_mem (to_square m) (attacks_of p (from_square m) (occupied pl))
  end.

(** The placement after the move, castling and en passant included. *)
Definition moved (b : Position) (m : Move) : list (option Piece) :=
  let pl := placement b in
  let c := side_to_move b in
  let m := to_chess960 pl m in
  let f := from_square m in
  let t := to_square m in
  match at_ pl f with
  | None => pl
  | Some p =>
      let castling :=
        PieceType_eqb (piece_type p) KING
        && nonzero (Z.land (occupied_co pl c) (BB_SQUARE t)) in
      if castling then
        let a_side := square_file t <? square_file f in
        let pl := set_at (set_at pl f None) t None in
        if a_side
        then set_at (set_at pl (if c then C1 else C8) (Some (mkPiece KING c)))
                    (if c then D1 else D8) (Some (mkPiece ROOK c))
        else set_at (set_at pl (if c then G1 else G8) (Some (mkPiece KING c)))
                    (if c then F1 else F8) (Some (mkPiece ROOK c))
      else
        let pl1 := set_at pl f None in
        let pl2 :=
          if PieceType_eqb (piece_type p) PAWN && is_en_passant b m
          then set_at pl1 (t + (if c then -8 else 8)) None
          else pl1 in
        set_at pl2 t
          (Some (mkPiece (match promotion m with
                          | Some q => q
                          | None => piece_type p
                          end) c))
  end.

Definition is_legal (b : Position) (m : Move) : bool :=
  if is_pseudo_legal b m then
    if is_castling (placement b) (side_to_move b) (to_chess960 (placement b) m)
    then true
    else negb (in_check (moved b m) (side_to_move b))
  else false.

Definition find_move (b : Position) (f t : Square)
  (promo : option PieceType) : option Move :=
  let pl := placement b in
  let promo :=
    match promo with
    | None =>
        if nonzero (Z.land (of_type pl PAWN) (BB_SQUARE f))
           && nonzero (Z.land (BB_SQUARE t) (Z.lor (BB_RANK 0) (BB_RANK 7)))
        then Some QUEEN else None
    | Some _ => promo
    end in
  let m := from_chess960 pl f t promo in
  if is_legal b m then Some m else None.

Definition is_capture (b : Position) (m : Move) : bool :=
  let touched := Z.lxor (BB_SQUARE (from_square m)) (BB_SQUARE (to_square m)) in
  nonzero (Z.land touched (occupied_co (placement b) (negb (side_to_move b))))
  || is_en_passant b m.

Definition has_castling_rights (kingside : bool) (b : Position) (c : Color)
  : bool :=
  let pl := placement b in
  let backrank := if c then BB_RANK 0 else BB_RANK 7 in
  let king_mask := Z.land (Z.land (of_type pl KING) (occupied_co pl c)) backrank in
  nonzero king_mask
  && existsb (fun r => if kingside then king_mask <? BB_SQUARE r
                       else BB_SQUARE r <? king_mask)
             (scan_forward (Z.land (clean_castling_rights b) backrank)).

Definition is_kingside_castling (b : Position) (m : Move) : bool :=
  is_castling (placement b) (side_to_move b) m
  && (square_file (from_square m) <? square_file (to_square m)).
Definition is_queenside_castling (b : Position) (m : Move) : bool :=
  is_castling (placement b) (side_to_move b) m
  && (square_file (to_square m) <? square_file (from_square m)).

(** Only the two castling notations are ever handed to the parser. *)
Definition parse_san (b : Position) (notation : string) : option Move :=
  if String.eqb notation "O-O"
  then find (is_kingside_castling b) (generate_castling_moves b)
  else if String.eqb notation "O-O-O"
  then find (is_queenside_castling b) (generate_castling_moves b)
  else None.

Definition peek (b : Position) : option Move := last (map Some (move_stack b)) None.

(** The engine asserts that there is a piece on the origin square; a move
    from an empty square leaves the position as it is. *)
Definition push (b : Position) (m0 : Move) : Position :=
  let pl := placement b in
  let c := side_to_move b in
  let m := to_chess960 pl m0 in
  let f := from_square m in
  let t := to_square m in
  match at_ pl f with
  | None => b
  | Some p =>
      let touched := Z.lxor (BB_SQUARE f) (BB_SQUARE t) in
      let zeroing :=
        nonzero (Z.land touched (of_type pl PAWN))
        || nonzero (Z.land touched (occupied_co pl (negb c))) in
      let rights :=
        Z.land (clean_castling_rights b)
               (Z.land BB_ALL (Z.lnot (Z.lor (BB_SQUARE f) (BB_SQUARE t)))) in
      let rights :=
        if PieceType_eqb (piece_type p) KING
        then Z.land rights (Z.land BB_ALL (Z.lnot (if c then BB_RANK 0 else BB_RANK 7)))
        else rights in
      let ep :=
        if PieceType_eqb (piece_type p) PAWN then
          if (t - f =? 16) && (square_rank f =? 1) then Some (f + 8)
          else if (t - f =? -16) && (square_rank f =? 6) then Some (f - 8)
          else None
        else None in
      mkPosition (moved b m0) (negb c) rights ep
        (if zeroing then 0 else halfmove_clock b + 1)
        (if c then fullmove_number b else fullmove_number b + 1)
        (move_stack b ++ [from_chess960 pl f t (promotion m)])
  end.

Definition has_legal_move (b : Position) : bool :=
  existsb (fun f =>
    existsb (fun t =>
      is_legal b (mkMove f t None) || is_legal b (mkMove f t (Some QUEEN)))
      SQUARES) SQUARES.

Definition piece_symbol (pt : PieceType) : string :=
  match pt with
  | PAWN => "P" | KNIGHT => "N" | BISHOP => "B"
  | ROOK => "R" | QUEEN => "Q" | KING => "K"
  end.

Definition san_without_suffix (b : Position) (m : Move) : string :=
  let pl := placement b in
  let c := side_to_move b in
  let f := from_square m in
  let t := to_square m in
  if is_castling pl c m then
    if square_file t <? square_file f then "O-O-O" else "O-O"
  else
    match at_ pl f with
    | None => "--"
    | Some p =>
        let capture := is_capture b m in
        let pt := piece_type p in
        let prefix :=
          if PieceType_eqb pt PAWN
          then (if capture then file_name f else "")
          else
            let from_mask :=
              Z.land (Z.land (of_type pl pt) (occupied_co pl c))
                     (Z.land BB_ALL (Z.lnot (BB_SQUARE f))) in
            let others :=
              bb_of_list (filter (fun s => is_legal b (mkMove s t None))
                            (scan_forward from_mask)) in
            String.append (piece_symbol pt)
              (if nonzero others then
                 let on_rank := nonzero (Z.land others (BB_RANK (square_rank f))) in
                 let on_file := nonzero (Z.land others (BB_FILE (square_file f))) in
                 let row := on_file in
                 let column := on_rank || negb on_file in
                 String.append (if column then file_name f else "")
                               (if row then rank_name f else "")
               else "") in
        String.append prefix
          (String.append (if capture then "x" else "")
          (String.append (square_name t)
             (match promotion m with
              | Some q => String.append "=" (piece_symbol q)
              | None => ""
              end)))
    end.

Definition san (b : Position) (m : Move) : string :=
  let base := san_without_suffix b m in
  let after := push b m in
  let check := in_check (placement after) (side_to_move after) in
  if check then
    if has_legal_move after then String.append base "+"
    else String.append base "#"
  else base.

#[global] Instance engine : RulesEngine Position := {
  piece_at b s := at_ (placement b) s;
  turn := side_to_move;
  find_move := find_move;
  is_capture := is_capture;
  is_attacked_by b c s := attacked (placement b) c s;
  pin b c s := SquareSet (pin_mask (placement b) c s);
  is_check b := in_check (placement b) (side_to_move b);
  has_kingside_castling_rights := has_castling_rights true;
  has_queenside_castling_rights := has_castling_rights false;
  parse_san := parse_san;
  peek := peek;
  push := push;
  san := san
}.

(** Setting up positions. *)
Definition place (l : list (Square * Piece)) : list (option Piece) :=
  fold_left (fun pl sp => set_at pl (fst sp) (Some (snd sp))) l
            (map (fun _ => None) SQUARES).

Definition back_rank : list PieceType :=
  [ROOK; KNIGHT; BISHOP; QUEEN; KING; BISHOP; KNIGHT; ROOK].
Definition files8 : list Z := [0; 1; 2; 3; 4; 5; 6; 7].

Definition initial : Position :=
  mkPosition
    (place (map (fun fp => (square (fst fp) 0, mkPiece (snd fp) WHITE))
                (combine files8 back_rank)
            ++ map (fun f => (square f 1, mkPiece PAWN WHITE)) files8
            ++ map (fun f => (square f 6, mkPiece PAWN BLACK)) files8
            ++ map (fun fp => (square (fst fp) 7, mkPiece (snd fp) BLACK))
                (combine files8 back_rank)))
    WHITE
    (Z.lor (Z.lor (BB_SQUARE A1) (BB_SQUARE H1))
           (Z.lor (BB_SQUARE A8) (BB_SQUARE H8)))
    None 0 1 [].
End RefEngine.



(** ** Auxiliary definitions for the statements *)

(** One step forward, or two from the home rank (ranks count from 0). *)
Definition pawn_advance_b (c : Color) (f t : Square) : bool :=
  if c then (t =? f + 8) || ((square_rank f =? 1) && (t =? f + 16))
  else (t =? f - 8) || ((square_rank f =? 6) && (t =? f - 16)).

(** A computation that leaves the store as it found it, whatever it
    returns or raises. *)
Definition readonly {S A} (m : M S A) : Prop := forall s, snd (m s) = s.

(** A computation over the whole store that leaves the board alone. *)
Definition keeps_board {Board A} (m : M (World Board) A) : Prop :=
  forall w, w_board (snd (m w)) = w_board w.

(** ** Positions and stores used in the examples *)

(** White: Ke1, Bf1, Rh1 with the kingside right; Black: Ke8, Rg8.
    The bishop stands in the king's way and the rook on g8 attacks g1. *)
Definition castle_position : RefEngine.Position :=
  RefEngine.mkPosition
    (RefEngine.place [(E1, mkPiece KING WHITE); (F1, mkPiece BISHOP WHITE);
                      (H1, mkPiece ROOK WHITE); (E8, mkPiece KING BLACK);
                      (G8, mkPiece ROOK BLACK)])
    WHITE (BB_SQUARE H1) None 0 1 [].

Definition fresh_world (b : RefEngine.Position) : World RefEngine.Position :=
  mkWorld b [] None None.

(** The interpreter's default limit on the depth of recursion. *)
Definition recursion_limit : nat := 1000.

(** The invariant the constructor of [SpecificSquares] asserts. *)
Definition wf_spec (s : SpecificSquares) : Prop :=
  opt_in PIECES (ss_piece s) = true /\
  opt_in FILES (ss_file s) = true /\
  opt_in RANKS (ss_rank s) = true.

Definition rejected_pair (r : RejectedMove) : Square * Square :=
  (rm_from_square r, rm_to_square r).

Definition promote_piece_of (self : CommandMove) : option PieceType :=
  match promotes_to self with
  | Some k => dict_get PIECES k
  | None => None
  end.

Section Verdicts.
Context {Board : Type} `{RulesEngine Board}.

(** The squares a specification resolves to, in iteration order. *)
Definition resolved (b : Board) (spec : SpecificSquares) : list Square :=
  match fst (find_candidate_squares spec b) with
  | Ok bb => scan_forward bb
  | Raise _ => []
  end.

(** The engine's verdict on one pair: the legal move it finds, unless a
    capture was asked for and the move is none. *)
Definition engine_verdict (b : Board) (caps : bool)
  (promo : option PieceType) (p : Square * Square) : option Move :=
  match find_move b (fst p) (snd p) promo with
  | Some m => if caps && negb (is_capture b m) then None else Some m
  | None => None
  end.

Definition accepted (b : Board) (caps : bool) (promo : option PieceType)
  (p : Square * Square) : list Move :=
  match engine_verdict b caps promo p with Some m => [m] | None => [] end.

Definition refused (b : Board) (caps : bool) (promo : option PieceType)
  (p : Square * Square) : bool :=
  negb (is_some (engine_verdict b caps promo p)).

(** What [blocking_squares] accumulates for a feasible move of piece [p]:
    the [|=] of the loop and of the final test, integer operands being read
    as masks. *)
Definition blocking_mask (b : Board) (p : Piece) (f t : Square) : Bitboard :=
  let between_part :=
    fold_left (fun acc sq => if is_some (piece_at b sq) then sqs_ior acc sq
                             else acc)
              (scan_forward (between f t)) (SquareSet 0) in
  match piece_at b t with
  | Some tp => if Bool.eqb (color p) (color tp) then sqs_ior between_part t
               else between_part
  | None => between_part
  end.
End Verdicts.

(** "knight to f three", white to move: origin and destination. *)
Definition white_knights : SpecificSquares :=
  mkSpecificSquares WHITE (Some "knight") None None.
Definition square_f3 : SpecificSquares :=
  mkSpecificSquares BLACK None (Some "f") (Some "3").
Definition knight_to_f3 : CommandMove :=
  CommandMove_init white_knights square_f3 false None.

(** "e two takes e four", white to move. *)
Definition square_e2 : SpecificSquares :=
  mkSpecificSquares WHITE None (Some "e") (Some "2").
Definition square_e4 : SpecificSquares :=
  mkSpecificSquares BLACK None (Some "e") (Some "4").
Definition e2_takes_e4 : CommandMove :=
  CommandMove_init square_e2 square_e4 true None.

(** The store after the assistant has said the sentences [l]. *)
Definition said {Board} (w : World Board) (l : list string) : World Board :=
  mkWorld (w_board w) (w_spoken w ++ l) (last_spoken_command w)
    (last_board_command w).

(** A rejected castle as its constructor leaves it when it returns: the
    right is assigned, and with the right the three other attributes. *)
Definition castle_attrs_set (r : CastleMove) : Prop :=
  match cm_right_to_castle r with
  | Some true =>
      cm_blocking_pieces r <> None /\ cm_through_check r <> None /\
      cm_into_check r <> None
  | Some false => True
  | None => False
  end.

Definition lacks_right (r : CastleMove) : bool :=
  match cm_right_to_castle r with Some false => true | _ => false end.
Definition path_blocked (r : CastleMove) : bool :=
  match cm_blocking_pieces r with Some bb => negb (bb =? 0) | None => false end.
Definition through_check (r : CastleMove) : bool :=
  match cm_through_check r with Some c => c | None => false end.
Definition into_check (r : CastleMove) : bool :=
  match cm_into_check r with Some c => c | None => false end.

(** The sentences for a list of rejected castles: the one about the lost
    right if some reject has lost it, and otherwise one sentence for each
    of the four conditions that some reject meets, in this order. *)
Definition castle_sentences (rejects : list CastleMove) : list string :=
  if existsb lacks_right rejects
  then ["You have already moved your king or rook."]
  else
    (if existsb path_blocked rejects
     then ["The path between your king and rook is not clear of pieces."]
     else [])
    ++ (if existsb cm_in_check rejects
        then ["Your king is still in check."] else [])
    ++ (if existsb through_check rejects
        then ["You're attempting to castle through check."] else [])
    ++ (if existsb into_check rejects
        then ["You're attempting to castle into check."] else []).

(** "castle short" before and after resolution on [castle_position]. *)
Definition castle_short : CastleCommand := mkCastleCommand (Some "king") [] [].
Definition castle_short_resolved : CastleCommand :=
  mkCastleCommand (Some "king") []
    [mkCastleMove "king" false (Some true) (Some 5) (Some false) (Some true)].

Section Resolver.
Context {Board : Type} `{RulesEngine Board}.

(** What a specification asks of a square. *)
Definition holds_piece (b : Board) (c : Color) (key : string) (s : Square)
  : Prop :=
  exists pt, dict_get PIECES key = Some pt /\ piece_at b s = Some (mkPiece pt c).

Definition matches (b : Board) (spec : SpecificSquares) (s : Square) : Prop :=
  match ss_piece spec, ss_file spec, ss_rank spec with
  | None, Some f, None =>
      (* a bare file: the pawns of the colour on it *)
      piece_at b s = Some (mkPiece PAWN (ss_color spec)) /\ file_name s = f
  | None, None, None => True
  | piece, file, rank =>
      (forall key, piece = Some key -> holds_piece b (ss_color spec) key s) /\
      (forall f, file = Some f -> file_name s = f) /\
      (forall r, rank = Some r -> rank_name s = r)
  end.
End Resolver.

(** A specification no token has been stored in yet. *)
Definition fresh_loc (loc : SpecificSquares) : Prop :=
  ss_bool loc = false /\ truthy (ss_file loc) = false /\
  truthy (ss_rank loc) = false.

(** ** [voice_control.py]: one utterance

    What the recogniser hands back for one utterance: its hypotheses, best
    first, or one of the two errors the code catches.  The microphone and
    the recogniser themselves are outside the model. *)

Inductive Heard : Type :=
| Nbest (guesses : list string)
| UnknownValue
| RequestFailed (message : string).

Definition UNKNOWN : string := "I'm sorry, I didn't get that.".

Section Listening.
Context {Board : Type} `{RulesEngine Board}.

Definition set_last_spoken_command (guess : string) : M (World Board) unit :=
  modify (fun w => mkWorld (w_board w) (w_spoken w) (Some guess)
                     (last_board_command w)).

(** The [for] loop over the hypotheses and the call after it.  With no
    command kept, the final call hands [None] to [respond_to_request],
    which is no command and not the inquiry "why": nothing is done. *)
Fixpoint try_guesses (depth : nat) (guesses : list string)
  (first_with_rejects : option BoardCommand) : M (World Board) unit :=
  match guesses with
  | [] =>
      match first_with_rejects with
      | Some command => respond_to_request (Command command)
      | None => ret tt
      end
  | guess :: rest =>
      parsed_request <- on_board (decipher_request depth guess) ;;
      match parsed_request with
      | Command command =>
          first_with_rejects <-
            (if negb (is_some first_with_rejects)
                && command_has_rejects command
             then set_last_spoken_command guess ;;; ret (Some command)
             else ret first_with_rejects) ;;
          match command_candidates command with
          | [] => try_guesses depth rest first_with_rejects
          | _ :: _ =>
              set_last_spoken_command guess ;;;
              respond_to_request parsed_request
          end
      | Inquiry _ => respond_to_request parsed_request
      end
  end.

Definition listen_to_request (depth : nat) (heard : Heard)
  : M (World Board) unit :=
  match heard with
  | Nbest guesses => try_guesses depth guesses None
  | UnknownValue => assistant UNKNOWN
  | RequestFailed message => assistant message
  end.

(** A hypothesis after which the loop returns: an inquiry, a command with
    a candidate, or a request the parser fails on. *)
Definition decisive (depth : nat) (guess : string) (b : Board) : Prop :=
  match fst (decipher_request depth guess b) with
  | Ok (Command command) => command_candidates command <> []
  | Ok (Inquiry _) => True
  | Raise _ => True
  end.
End Listening.

(** ** More auxiliary definitions for the statements *)

(** An attribute that is unset, empty, or a key of its dictionary. *)
Definition attr_known {V} (d : list (string * V)) (o : option string) : bool :=
  negb (truthy o) || opt_in d o.

(** The movement patterns of the pieces other than the pawn, by the
    distances between the files and between the ranks. *)
Definition reaches (pt : PieceType) (f t : Square) : bool :=
  let df := Z.abs (square_file f - square_file t) in
  let dr := Z.abs (square_rank f - square_rank t) in
  let straight := ((df =? 0) && negb (dr =? 0)) || ((dr =? 0) && negb (df =? 0)) in
  let diagonal := (df =? dr) && negb (df =? 0) in
  match pt with
  | KNIGHT => ((df =? 1) && (dr =? 2)) || ((df =? 2) && (dr =? 1))
  | KING => Z.max df dr =? 1
  | ROOK => straight
  | BISHOP => diagonal
  | QUEEN => straight || diagonal
  | PAWN => false
  end.

Definition opt_to_list {A} (o : option A) : list A :=
  match o with Some a => [a] | None => [] end.


(** More positions and commands for the examples. *)
Definition after_e2_e4 : RefEngine.Position :=
  push RefEngine.initial (mkMove E2 E4 None).

Definition square_e3 : SpecificSquares :=
  mkSpecificSquares WHITE None (Some "e") (Some "3").
Definition e3_to_e4 : CommandMove :=
  CommandMove_init square_e3 square_e4 false None.

Definition knight_to_f3_resolved : CommandMove :=
  match fst (consider_moves knight_to_f3 RefEngine.initial) with
  | Ok cmd => cmd
  | Raise _ => knight_to_f3
  end.

Definition castle_either : CastleCommand := mkCastleCommand None [] [].
Definition castle_either_resolved : CastleCommand :=
  match fst (castle_consider_moves castle_either RefEngine.initial) with
  | Ok cmd => cmd
  | Raise _ => castle_either
  end.

(** Whether a castle command tries the given side: it names that side, or
    names none. *)
Definition side_tried (side : option string) (wanted : string) : bool :=
  opt_string_eqb side (Some wanted) || negb (truthy side).

Section CastleRejects.
Context {Board : Type} `{RulesEngine Board}.

(** A rejected castle as built on board [b] for the side [wanted]. *)
Definition castle_reject_of (b : Board) (wanted : string) (r : CastleMove)
  : Prop :=
  cm_side r = wanted /\ cm_in_check r = is_check b /\
  cm_right_to_castle r =
    Some (if String.eqb wanted "king"
          then has_kingside_castling_rights b (turn b)
          else has_queenside_castling_rights b (turn b)).
End CastleRejects.

Definition e2_takes_e4_resolved : CommandMove :=
  match fst (consider_moves e2_takes_e4 RefEngine.initial) with
  | Ok cmd => cmd
  | Raise _ => e2_takes_e4
  end.

(** * Properties *)

Unset Implicit Arguments.

(** ** Finite enumeration over the 64 squares *)

Lemma in_SQUARES (s : Square) : 0 <= s < 64 -> In s SQUARES.
Proof.
  intros Hs. unfold SQUARES.
  replace s with (Z.of_nat (Z.to_nat s)) by lia.
  apply in_map, in_seq. lia.
Qed.

Lemma SQUARES_range (s : Square) : In s SQUARES -> 0 <= s < 64.
Proof.
  unfold SQUARES. intros Hin. apply in_map_iff in Hin.
  destruct Hin as [n [<- Hn]]. apply in_seq in Hn. lia.
Qed.

Lemma forall_squares (P : Square -> bool) :
  forallb P SQUARES = true -> forall s, 0 <= s < 64 -> P s = true.
Proof.
  intros Hall s Hs. rewrite forallb_forall in Hall.
  apply Hall, in_SQUARES, Hs.
Qed.

Lemma forall_squares2 (P : Square -> Square -> bool) :
  forallb (fun a => forallb (P a) SQUARES) SQUARES = true ->
  forall a b, 0 <= a < 64 -> 0 <= b < 64 -> P a b = true.
Proof.
  intros Hall a b Ha Hb.
  apply (forall_squares (P a)); [| exact Hb].
  apply (forall_squares (fun a => forallb (P a) SQUARES)); assumption.
Qed.

(** ** The pawn rule of [is_possible_move] *)

Lemma pawn_possible_table (c : Color) :
  forallb (fun f => forallb (fun t =>
    match is_possible_move (Some (mkPiece PAWN c)) f t with
    | Ok r => Bool.eqb r (pawn_advance_b c f t)
    | Raise _ => false
    end) SQUARES) SQUARES = true.
Proof. destruct c; vm_compute; reflexivity. Qed.

Lemma pawn_possible_eq (c : Color) (f t : Square) :
  0 <= f < 64 -> 0 <= t < 64 ->
  is_possible_move (Some (mkPiece PAWN c)) f t = Ok (pawn_advance_b c f t).
Proof.
  intros Hf Ht.
  pose proof (forall_squares2 _ (pawn_possible_table c) f t Hf Ht) as E.
  cbv beta in E.
  destruct (is_possible_move (Some (mkPiece PAWN c)) f t) as [r|e];
    [| discriminate].
  apply eqb_prop in E. now subst.
Qed.

(** C2 (as amended): for a pawn, [is_possible_move] never raises and is true
    exactly for the square one step forward and, from the pawn's home rank
    only, the square two steps forward; in particular it is false for the
    two diagonal capture squares. *)
Theorem is_possible_move_pawn (c : Color) (f t : Square) :
  0 <= f < 64 -> 0 <= t < 64 ->
  exists r, is_possible_move (Some (mkPiece PAWN c)) f t = Ok r /\
    (r = true <->
       (c = WHITE /\ (t = f + 8 \/ (square_rank f = 1 /\ t = f + 16))) \/
       (c = BLACK /\ (t = f - 8 \/ (square_rank f = 6 /\ t = f - 16)))).
Proof.
  intros Hf Ht. eexists. split; [apply pawn_possible_eq; assumption |].
  unfold pawn_advance_b, WHITE, BLACK. destruct c.
  - rewrite orb_true_iff, andb_true_iff, !Z.eqb_eq.
    split; [intros Hadv; left; tauto |].
    intros [[_ Hadv] | [Hc _]]; [tauto | discriminate].
  - rewrite orb_true_iff, andb_true_iff, !Z.eqb_eq.
    split; [intros Hadv; right; tauto |].
    intros [[Hc _] | [_ Hadv]]; [discriminate | tauto].
Qed.

Lemma is_possible_move_pawn_witness :
  (0 <= E2 < 64) /\ (0 <= E4 < 64) /\
  exists r, is_possible_move (Some (mkPiece PAWN WHITE)) E2 E4 = Ok r /\
    (r = true <->
       (WHITE = WHITE /\ (E4 = E2 + 8 \/ (square_rank E2 = 1 /\ E4 = E2 + 16))) \/
       (WHITE = BLACK /\ (E4 = E2 - 8 \/ (square_rank E2 = 6 /\ E4 = E2 - 16)))).
Proof.
  split; [unfold E2; lia |]. split; [unfold E4; lia |].
  apply (is_possible_move_pawn WHITE E2 E4); [unfold E2 | unfold E4]; lia.
Defined.

(** C2, the claim as stated fails: a white pawn on e4 (not on its home rank)
    has d5 in its capture pattern, yet [is_possible_move] answers false. *)
Lemma is_possible_move_pawn_diagonal_false :
  bb_mem D5 (pawn_attacks WHITE E4) = true /\
  is_possible_move (Some (mkPiece PAWN WHITE)) E4 D5 = Ok false.
Proof. split; vm_compute; reflexivity. Qed.

(** ** Frame lemmas: what reads the board does not write it *)

Lemma readonly_ret {S A} (a : A) : readonly (@ret S A a).
Proof. intros s. reflexivity. Qed.

Lemma readonly_raise {S A} (e : exn) : readonly (@raise S A e).
Proof. intros s. reflexivity. Qed.

Lemma readonly_gets {S A} (f : S -> A) : readonly (gets f).
Proof. intros s. reflexivity. Qed.

Lemma readonly_lift_result {S A} (r : result A) : readonly (@lift_result S A r).
Proof. intros s. reflexivity. Qed.

Lemma readonly_bind {S A B} (m : M S A) (k : A -> M S B) :
  readonly m -> (forall a, readonly (k a)) -> readonly (bind m k).
Proof.
  intros Hm Hk s. unfold bind. specialize (Hm s).
  destruct (m s) as [[a|e] s']; simpl in Hm; subst s'.
  - apply Hk.
  - reflexivity.
Qed.

Lemma readonly_try {S A} (m h : M S A) :
  readonly m -> readonly h -> readonly (try_except_ValueError m h).
Proof.
  intros Hm Hh s. unfold try_except_ValueError. specialize (Hm s).
  destruct (m s) as [[a|e] s']; simpl in Hm; subst s'.
  - reflexivity.
  - destruct e; try reflexivity. apply Hh.
Qed.

Lemma readonly_for_each {S A Acc} (body : A -> Acc -> M S Acc) :
  (forall x acc, readonly (body x acc)) ->
  forall l acc, readonly (for_each l body acc).
Proof.
  intros Hbody l. induction l as [|x l IH]; intros acc; simpl.
  - apply readonly_ret.
  - apply readonly_bind; [apply Hbody | intros acc'; apply IH].
Qed.

Ltac readonly_step :=
  match goal with
  | |- forall _, _ => intro
  | |- readonly (bind _ _) => apply readonly_bind
  | |- readonly (ret _) => apply readonly_ret
  | |- readonly (raise _) => apply readonly_raise
  | |- readonly (gets _) => apply readonly_gets
  | |- readonly (lift_result _) => apply readonly_lift_result
  | |- readonly (try_except_ValueError _ _) => apply readonly_try
  | |- readonly (for_each _ _ _) => apply readonly_for_each
  | |- readonly (if ?c then _ else _) => destruct c
  | |- readonly (match ?x with _ => _ end) => destruct x
  end.
Ltac readonly_tac := repeat readonly_step; auto.

Section Frames.
Context {Board : Type} `{RulesEngine Board}.

Lemma readonly_blocking_squares (f t : Square) :
  readonly (blocking_squares f t).
Proof. unfold blocking_squares. readonly_tac. Qed.

Lemma readonly_find_candidate_squares (self : SpecificSquares) :
  readonly (find_candidate_squares self).
Proof. unfold find_candidate_squares. readonly_tac. Qed.

Lemma readonly_RejectedMove_init (f t : Square) :
  readonly (RejectedMove_init f t).
Proof.
  unfold RejectedMove_init.
  pose proof (readonly_blocking_squares f t). readonly_tac.
Qed.

Lemma readonly_castle_conditions (self : CastleMove) (f th t : Square) :
  readonly (castle_conditions self f th t).
Proof.
  unfold castle_conditions.
  pose proof readonly_blocking_squares. readonly_tac.
Qed.

Lemma readonly_CastleMove_init (side : string) :
  readonly (CastleMove_init side).
Proof.
  unfold CastleMove_init.
  pose proof readonly_castle_conditions. readonly_tac.
Qed.

Lemma readonly_consider_pair caps promo f t acc :
  readonly (consider_pair caps promo f t acc).
Proof.
  unfold consider_pair. destruct acc as [candidates rejects].
  pose proof readonly_RejectedMove_init. readonly_tac.
Qed.

Lemma readonly_consider_moves (self : CommandMove) :
  readonly (consider_moves self).
Proof.
  unfold consider_moves.
  pose proof readonly_find_candidate_squares.
  pose proof readonly_consider_pair. readonly_tac.
Qed.

Lemma readonly_castle_try wanted notation side acc :
  readonly (castle_try wanted notation side acc).
Proof.
  unfold castle_try. destruct acc as [candidates rejects].
  pose proof readonly_CastleMove_init. readonly_tac.
Qed.

Lemma readonly_castle_consider_moves (self : CastleCommand) :
  readonly (castle_consider_moves self).
Proof.
  unfold castle_consider_moves.
  pose proof readonly_castle_try. readonly_tac.
Qed.

Lemma readonly_take_last taker say_promotes :
  readonly (take_last taker say_promotes).
Proof. unfold take_last. readonly_tac. Qed.

Lemma readonly_decipher_request depth request :
  readonly (decipher_request depth request).
Proof.
  unfold decipher_request.
  pose proof readonly_castle_consider_moves.
  pose proof readonly_consider_moves.
  pose proof readonly_take_last. readonly_tac.
Qed.

(** *** The store of [voice_control.py] *)

Lemma keeps_board_ret {A} (a : A) : keeps_board (@ret (World Board) A a).
Proof. intros w. reflexivity. Qed.

Lemma keeps_board_lift_result {A} (r : result A) :
  keeps_board (@lift_result (World Board) A r).
Proof. intros w. reflexivity. Qed.

Lemma keeps_board_gets {A} (f : World Board -> A) : keeps_board (gets f).
Proof. intros w. reflexivity. Qed.

Lemma keeps_board_bind {A B} (m : M (World Board) A)
  (k : A -> M (World Board) B) :
  keeps_board m -> (forall a, keeps_board (k a)) -> keeps_board (bind m k).
Proof.
  intros Hm Hk w. unfold bind. specialize (Hm w).
  destruct (m w) as [[a|e] w']; simpl in Hm.
  - rewrite Hk. exact Hm.
  - exact Hm.
Qed.

Lemma keeps_board_on_board {A} (m : M Board A) :
  readonly m -> keeps_board (on_board m).
Proof.
  intros Hm w. unfold on_board. specialize (Hm (w_board w)).
  destruct (m (w_board w)) as [r b]. exact Hm.
Qed.

Lemma keeps_board_assistant (text : string) :
  keeps_board (assistant text : M (World Board) unit).
Proof. intros w. reflexivity. Qed.

Lemma keeps_board_for_each {A Acc}
  (body : A -> Acc -> M (World Board) Acc) :
  (forall x acc, keeps_board (body x acc)) ->
  forall l acc, keeps_board (for_each l body acc).
Proof.
  intros Hbody l. induction l as [|x l IH]; intros acc; simpl.
  - apply keeps_board_ret.
  - apply keeps_board_bind; [apply Hbody | intros acc'; apply IH].
Qed.

Lemma keeps_board_speak_move (move : Move) : keeps_board (speak_move move).
Proof.
  unfold speak_move. apply keeps_board_bind.
  - apply keeps_board_on_board, readonly_gets.
  - intros notation.
    repeat match goal with
           | |- keeps_board (if ?c then _ else _) => destruct c
           end; apply keeps_board_assistant.
Qed.
End Frames.

Ltac keeps_board_step :=
  match goal with
  | |- forall _, _ => intro
  | |- keeps_board (bind _ _) => apply keeps_board_bind
  | |- keeps_board (ret _) => apply keeps_board_ret
  | |- keeps_board (gets _) => apply keeps_board_gets
  | |- keeps_board (lift_result _) => apply keeps_board_lift_result
  | |- keeps_board (assistant _) => apply keeps_board_assistant
  | |- keeps_board (speak_move _) => apply keeps_board_speak_move
  | |- keeps_board (on_board _) => apply keeps_board_on_board
  | |- keeps_board (for_each _ _ _) => apply keeps_board_for_each
  | |- keeps_board (if ?c then _ else _) => destruct c
  | |- keeps_board (match ?x with _ => _ end) => destruct x
  | |- readonly _ => readonly_step
  end.
Ltac keeps_board_tac := repeat keeps_board_step; auto.

Section Responses.
Context {Board : Type} `{RulesEngine Board}.

Lemma speak_move_returns (move : Move) (w : World Board) :
  exists w', speak_move move w = (Ok tt, w').
Proof.
  unfold speak_move, bind, on_board, gets, assistant, modify. simpl.
  repeat match goal with
         | |- context [if ?c then _ else _] => destruct c
         end; eexists; reflexivity.
Qed.

Lemma keeps_board_say_if_any test rejects sentence :
  keeps_board (say_if_any test rejects sentence : M (World Board) unit).
Proof. unfold say_if_any. keeps_board_tac. Qed.

Lemma keeps_board_explain_no_castle (c : CastleCommand) :
  keeps_board (explain_no_castle c : M (World Board) unit).
Proof.
  unfold explain_no_castle.
  pose proof keeps_board_say_if_any. keeps_board_tac.
Qed.

Lemma keeps_board_explain_broken_condition introduction moves :
  keeps_board (explain_broken_condition introduction moves).
Proof. unfold explain_broken_condition. keeps_board_tac. Qed.

Lemma keeps_board_explain_no_moves (c : CommandMove) :
  keeps_board (explain_no_moves c).
Proof.
  unfold explain_no_moves.
  pose proof keeps_board_explain_broken_condition. keeps_board_tac.
Qed.

Lemma keeps_board_respond_to_inquiry (inquiry : string) :
  keeps_board (respond_to_inquiry inquiry).
Proof.
  unfold respond_to_inquiry, explain_why_ambiguous, explain_rejected_moves.
  pose proof keeps_board_explain_no_moves.
  pose proof keeps_board_explain_no_castle.
  keeps_board_tac.
Qed.

Lemma respond_to_command_board (command : BoardCommand) (w : World Board) :
  w_board (snd (respond_to_command command w)) =
  match command_candidates command with
  | [m] => push (w_board w) m
  | _ => w_board w
  end.
Proof.
  unfold respond_to_command.
  destruct (command_candidates command) as [|m [|m' rest]].
  - unfold bind, modify. simpl.
    destruct (command_has_rejects command); reflexivity.
  - unfold bind at 1. unfold modify at 1. simpl.
    unfold bind at 1. simpl.
    match goal with
    | |- context [bind (speak_move m) ?k ?w0] =>
        unfold bind at 1;
        pose proof (keeps_board_speak_move m w0) as Hsp;
        destruct (speak_move_returns m w0) as [w1 Hret];
        rewrite Hret in Hsp |- *
    end; simpl in Hsp |- *.
    unfold bind, lift_result, modify. simpl. now rewrite Hsp.
  - unfold bind, modify. reflexivity.
Qed.

(** C9: resolving a command, directional or castle, leaves the board as it
    was whatever the outcome; responding to a resolved command pushes the
    candidate when there is exactly one, and otherwise leaves the board as
    it was. *)
Theorem board_only_changed_by_the_one_candidate :
  (forall (self : CommandMove) (b : Board), snd (consider_moves self b) = b) /\
  (forall (self : CastleCommand) (b : Board),
     snd (castle_consider_moves self b) = b) /\
  (forall (command : BoardCommand) (w : World Board),
     w_board (snd (respond_to_command command w)) =
     match command_candidates command with
     | [m] => push (w_board w) m
     | _ => w_board w
     end).
Proof.
  split; [exact readonly_consider_moves |].
  split; [exact readonly_castle_consider_moves |].
  exact respond_to_command_board.
Qed.
End Responses.

(** ** The token parser *)

(** C10 (fails on the code): on the one-token list ["1"] the function calls
    itself on the very same list, whatever the depth allowed: the token is
    not consumed by any branch of the loop, and being a key of [RANKS] it is
    not skipped either.  No number of frames makes it return. *)
Theorem locations_in_tokens_digit_never_returns :
  forall (depth : nat) (turn : bool),
    locations_in_tokens depth ["1"] turn = Raise RecursionError.
Proof.
  induction depth as [|depth IH]; intros turn.
  - reflexivity.
  - simpl. rewrite IH. reflexivity.
Qed.

(** The same two tokens, once spelled as the parser expects them and once
    in digits. *)
Example locations_spoken :
  locations_in_tokens 3 ["e"; "two"; "e"; "four"] WHITE =
  Ok [mkSpecificSquares WHITE None (Some "e") (Some "2");
      mkSpecificSquares BLACK None (Some "e") (Some "4")].
Proof. reflexivity. Qed.

Example locations_digits :
  locations_in_tokens 3 ["e2"; "e4"] WHITE = Ok [].
Proof. reflexivity. Qed.

Example split_example : split " knight  to f three " = ["knight"; "to"; "f"; "three"].
Proof. reflexivity. Qed.

(** ** Running the monad *)

Lemma bind_ok {S A B} {m : M S A} (k : A -> M S B) {s a s'} :
  m s = (Ok a, s') -> bind m k s = k a s'.
Proof. intros E. unfold bind. now rewrite E. Qed.

Lemma bind_raise {S A B} {m : M S A} (k : A -> M S B) {s e s'} :
  m s = (Raise e, s') -> bind m k s = (Raise e, s').
Proof. intros E. unfold bind. now rewrite E. Qed.

Lemma bind_gets {S A B} (f : S -> A) (k : A -> M S B) s :
  bind (gets f) k s = k (f s) s.
Proof. reflexivity. Qed.

Lemma bind_ret {S A B} (a : A) (k : A -> M S B) s :
  bind (ret a) k s = k a s.
Proof. reflexivity. Qed.

Lemma bind_assoc {S A B C} (m : M S A) (k1 : A -> M S B) (k2 : B -> M S C) s :
  bind (bind m k1) k2 s = bind m (fun a => bind (k1 a) k2) s.
Proof. unfold bind. destruct (m s) as [[a|e] s']; reflexivity. Qed.

Lemma bind_gets_ret {S A B C} (f : S -> A) (g : A -> B) (k : B -> M S C) s :
  bind (bind (gets f) (fun r => ret (g r))) k s = k (g (f s)) s.
Proof. reflexivity. Qed.

Lemma bind_lift_ok {S A B} (a : A) (k : A -> M S B) s :
  bind (lift_result (Ok a)) k s = k a s.
Proof. reflexivity. Qed.

Lemma bind_lift_raise {S A B} (e : exn) (k : A -> M S B) s :
  bind (lift_result (Raise e)) k s = (Raise e, s).
Proof. reflexivity. Qed.

Lemma opt_index_ok {V} (d : list (string * V)) (o : option string) :
  opt_in d o = true -> truthy o = true -> exists v, opt_index d o = Ok v.
Proof.
  destruct o as [k|]; simpl; [| discriminate].
  unfold dict_in, dict_index. intros Hin _.
  destruct (dict_get d k) as [v|]; [eauto | discriminate].
Qed.

Section Classifier.
Context {Board : Type} `{RulesEngine Board}.

Lemma find_candidate_squares_ok (spec : SpecificSquares) (b : Board) :
  wf_spec spec -> exists bb, find_candidate_squares spec b = (Ok bb, b).
Proof.
  intros (Hp & Hf & Hr). unfold find_candidate_squares.
  assert (Hrest : forall file_squares, exists bb,
    (piece_squares <-
       (if truthy (ss_piece spec)
        then pt <- lift_result (opt_index PIECES (ss_piece spec)) ;;
             gets (fun b => pieces b pt (ss_color spec))
        else ret BB_ALL) ;;
     rank_squares <-
       (if truthy (ss_rank spec)
        then lift_result (opt_index RANKS (ss_rank spec))
        else ret BB_ALL) ;;
     ret (sqs_and (sqs_and (SquareSet piece_squares) file_squares)
            rank_squares)) b = (Ok bb, b)).
  { intros file_squares.
    destruct (truthy (ss_piece spec)) eqn:Tp;
      destruct (truthy (ss_rank spec)) eqn:Tr;
      try (destruct (opt_index_ok PIECES _ Hp Tp) as [pt ->]);
      try (destruct (opt_index_ok RANKS _ Hr Tr) as [rk ->]);
      eexists; reflexivity. }
  destruct (truthy (ss_file spec)) eqn:Tf.
  - destruct (opt_index_ok FILES _ Hf Tf) as [fs ->].
    rewrite bind_lift_ok.
    destruct (negb (truthy (ss_piece spec)) && negb (truthy (ss_rank spec))).
    + eexists; reflexivity.
    + apply Hrest.
  - apply Hrest.
Qed.

Lemma is_possible_move_some (p : Piece) (f t : Square) :
  exists r, is_possible_move (Some p) f t = Ok r.
Proof.
  unfold is_possible_move.
  destruct (PieceType_eqb (piece_type p) PAWN); eexists; reflexivity.
Qed.

Lemma for_each_fold {S A Acc} (step : S -> A -> Acc -> Acc)
  (body : A -> Acc -> M S Acc) (s : S) :
  (forall x acc, body x acc s = (Ok (step s x acc), s)) ->
  forall l acc,
    for_each l body acc s = (Ok (fold_left (fun a x => step s x a) l acc), s).
Proof.
  intros Hbody l. induction l as [|x l IH]; intros acc; cbn [for_each fold_left].
  - reflexivity.
  - rewrite (bind_ok _ (Hbody x acc)). apply IH.
Qed.

(** What [blocking_squares] returns once there is a piece to move. *)
Lemma blocking_squares_occupied (b : Board) (p : Piece) (f t : Square)
  (possible : bool) :
  piece_at b f = Some p ->
  is_possible_move (Some p) f t = Ok possible ->
  blocking_squares f t b =
    (Ok (if possible then blocking_mask b p f t else SquareSet 0), b).
Proof.
  intros Hp Hposs. unfold blocking_squares.
  rewrite !bind_gets, Hp, Hposs, bind_lift_ok.
  destruct possible; [| reflexivity].
  erewrite bind_ok; cycle 1.
  { apply (for_each_fold
             (fun b sq acc => if is_some (piece_at b sq) then sqs_ior acc sq
                              else acc)).
    intros sq acc. rewrite bind_gets.
    destruct (is_some (piece_at b sq)); reflexivity. }
  unfold blocking_mask.
  destruct (piece_at b t) as [tp|]; [| reflexivity].
  simpl. rewrite bind_lift_ok.
  destruct (Bool.eqb (color p) (color tp)); reflexivity.
Qed.

Lemma RejectedMove_init_occupied (b : Board) (p : Piece) (f t : Square) :
  piece_at b f = Some p ->
  exists r, RejectedMove_init f t b = (Ok r, b) /\ rejected_pair r = (f, t).
Proof.
  intros Hp. unfold RejectedMove_init.
  destruct (is_possible_move_some p f t) as [possible Hposs].
  rewrite !bind_gets, Hp, Hposs, bind_lift_ok.
  rewrite (bind_ok _ (blocking_squares_occupied b p f t possible Hp Hposs)).
  rewrite bind_gets. simpl. rewrite bind_lift_ok, bind_gets.
  eexists. split; reflexivity.
Qed.

(** The origin square is empty: the constructor reads an attribute of
    "no piece". *)
Lemma RejectedMove_init_unoccupied (b : Board) (f t : Square) :
  piece_at b f = None ->
  RejectedMove_init f t b = (Raise AttributeError, b).
Proof.
  intros Hp. unfold RejectedMove_init.
  rewrite !bind_gets, Hp. reflexivity.
Qed.

Lemma consider_pair_accepts (b : Board) caps promo f t cs rs m :
  engine_verdict b caps promo (f, t) = Some m ->
  consider_pair caps promo f t (cs, rs) b = (Ok (cs ++ [m], rs), b).
Proof.
  unfold engine_verdict, consider_pair, try_except_ValueError. simpl.
  rewrite bind_gets.
  destruct (find_move b f t promo) as [m'|]; [| discriminate].
  rewrite bind_gets.
  destruct (caps && negb (is_capture b m')); [discriminate |].
  intros [= ->]. reflexivity.
Qed.

Lemma consider_pair_refuses (b : Board) caps promo f t cs rs :
  engine_verdict b caps promo (f, t) = None ->
  consider_pair caps promo f t (cs, rs) b =
    match RejectedMove_init f t b with
    | (Ok r, b') => (Ok (cs, rs ++ [r]), b')
    | (Raise e, b') => (Raise e, b')
    end.
Proof.
  unfold engine_verdict, consider_pair, try_except_ValueError. simpl.
  rewrite bind_gets.
  destruct (find_move b f t promo) as [m'|].
  - rewrite bind_gets.
    destruct (caps && negb (is_capture b m')); [| discriminate].
    intros _. unfold raise, bind.
    destruct (RejectedMove_init f t b) as [[r|e] b']; reflexivity.
  - intros _. unfold raise, bind.
    destruct (RejectedMove_init f t b) as [[r|e] b']; reflexivity.
Qed.

Lemma inner_loop (b : Board) caps promo f :
  forall ts cs rs,
    (forall t, In t ts -> engine_verdict b caps promo (f, t) = None ->
               piece_at b f <> None) ->
    exists rs',
      for_each ts (fun t acc => consider_pair caps promo f t acc) (cs, rs) b =
        (Ok (cs ++ flat_map (accepted b caps promo) (map (pair f) ts),
             rs ++ rs'), b) /\
      map rejected_pair rs' =
        filter (refused b caps promo) (map (pair f) ts).
Proof.
  induction ts as [|t ts IH]; intros cs rs Hocc;
    cbn [for_each map flat_map filter].
  - exists []. rewrite !app_nil_r. split; reflexivity.
  - unfold accepted at 1, refused at 1.
    destruct (engine_verdict b caps promo (f, t)) as [m|] eqn:V.
    + rewrite (bind_ok _ (consider_pair_accepts b caps promo f t cs rs m V)).
      destruct (IH (cs ++ [m]) rs) as [rs' [E Hrs]].
      { intros t' Hin. apply Hocc. now right. }
      exists rs'. rewrite E, <- app_assoc. split; [reflexivity | exact Hrs].
    + destruct (piece_at b f) as [p|] eqn:Hp;
        [| exfalso; apply (Hocc t (or_introl eq_refl) V); reflexivity].
      destruct (RejectedMove_init_occupied b p f t Hp) as [r [Er Hr]].
      pose proof (consider_pair_refuses b caps promo f t cs rs V) as Ec.
      rewrite Er in Ec. rewrite (bind_ok _ Ec).
      destruct (IH cs (rs ++ [r])) as [rs' [E Hrs]].
      { intros t' Hin. apply Hocc. now right. }
      exists (r :: rs'). rewrite E, <- app_assoc. simpl.
      split; [reflexivity |]. now rewrite Hr, Hrs.
Qed.

Lemma outer_loop (b : Board) caps promo ts :
  forall fs cs rs,
    (forall f t, In (f, t) (list_prod fs ts) ->
                 engine_verdict b caps promo (f, t) = None ->
                 piece_at b f <> None) ->
    exists rs',
      for_each fs
        (fun f acc =>
           for_each ts (fun t acc => consider_pair caps promo f t acc) acc)
        (cs, rs) b =
        (Ok (cs ++ flat_map (accepted b caps promo) (list_prod fs ts),
             rs ++ rs'), b) /\
      map rejected_pair rs' = filter (refused b caps promo) (list_prod fs ts).
Proof.
  induction fs as [|f fs IH]; intros cs rs Hocc;
    cbn [for_each list_prod flat_map filter].
  - exists []. rewrite !app_nil_r. split; reflexivity.
  - destruct (inner_loop b caps promo f ts cs rs) as [rs1 [E1 H1]].
    { intros t Hin. apply Hocc. simpl. apply in_or_app. left.
      now apply in_map. }
    rewrite (bind_ok _ E1).
    destruct (IH (cs ++ flat_map (accepted b caps promo) (map (pair f) ts))
                 (rs ++ rs1)) as [rs2 [E2 H2]].
    { intros f' t Hin. apply Hocc. simpl. apply in_or_app. now right. }
    exists (rs1 ++ rs2). rewrite E2.
    rewrite flat_map_app, filter_app, map_app, <- !app_assoc, H1, H2.
    split; reflexivity.
Qed.

Lemma accepted_refused_length (b : Board) caps promo
  (l : list (Square * Square)) :
  (List.length (flat_map (accepted b caps promo) l)
   + List.length (filter (refused b caps promo) l) = List.length l)%nat.
Proof.
  induction l as [|p l IH]; simpl; [reflexivity |].
  rewrite length_app. unfold accepted at 1, refused at 1.
  destruct (engine_verdict b caps promo p); simpl; lia.
Qed.
End Classifier.

(** C1 (as amended): when the two specifications satisfy the constructor's
    invariant and every pair the engine refuses has a piece on its origin
    square, resolution returns, and the pairs of the product, origins outer
    and destinations inner, are split between the two lists: a pair is a
    candidate when the engine finds a legal move for it that is a capture if
    one was asked for, and a reject otherwise -- a legal non-capturing move
    under capture intent included.  The two lists together are as long as
    the product. *)
Theorem consider_moves_partition {Board : Type} `{RulesEngine Board}
  (self : CommandMove) (b : Board) :
  wf_spec (from_where self) -> wf_spec (to_where self) ->
  (forall f t,
     In (f, t) (list_prod (resolved b (from_where self))
                          (resolved b (to_where self))) ->
     engine_verdict b (captures self) (promote_piece_of self) (f, t) = None ->
     piece_at b f <> None) ->
  exists cmd,
    consider_moves self b = (Ok cmd, b) /\
    candidate_moves cmd =
      flat_map (accepted b (captures self) (promote_piece_of self))
        (list_prod (resolved b (from_where self)) (resolved b (to_where self))) /\
    map rejected_pair (rejected_moves cmd) =
      filter (refused b (captures self) (promote_piece_of self))
        (list_prod (resolved b (from_where self)) (resolved b (to_where self))) /\
    (List.length (candidate_moves cmd) + List.length (rejected_moves cmd) =
     List.length (list_prod (resolved b (from_where self))
                            (resolved b (to_where self))))%nat.
Proof.
  intros Hfrom Hto. unfold resolved.
  destruct (find_candidate_squares_ok (from_where self) b Hfrom) as [fbb Ef].
  destruct (find_candidate_squares_ok (to_where self) b Hto) as [tbb Et].
  rewrite Ef, Et. cbn [fst]. intros Hocc.
  destruct (outer_loop b (captures self) (promote_piece_of self)
              (scan_forward tbb) (scan_forward fbb) [] [] Hocc)
    as [rs [Eloop Hrs]].
  unfold consider_moves.
  rewrite (bind_ok _ Ef), (bind_ok _ Et).
  fold (promote_piece_of self).
  rewrite (bind_ok _ Eloop). cbn [app fst snd].
  eexists. split; [reflexivity |]. cbn [candidate_moves rejected_moves].
  split; [reflexivity |]. split; [exact Hrs |].
  rewrite <- (length_map rejected_pair rs), Hrs.
  apply accepted_refused_length.
Qed.

Lemma consider_moves_partition_witness :
  wf_spec (from_where knight_to_f3) /\ wf_spec (to_where knight_to_f3) /\
  (forall f t,
     In (f, t) (list_prod (resolved RefEngine.initial (from_where knight_to_f3))
                          (resolved RefEngine.initial (to_where knight_to_f3))) ->
     engine_verdict RefEngine.initial (captures knight_to_f3)
       (promote_piece_of knight_to_f3) (f, t) = None ->
     piece_at RefEngine.initial f <> None) /\
  exists cmd,
    consider_moves knight_to_f3 RefEngine.initial = (Ok cmd, RefEngine.initial) /\
    candidate_moves cmd =
      flat_map (accepted RefEngine.initial (captures knight_to_f3)
                  (promote_piece_of knight_to_f3))
        (list_prod (resolved RefEngine.initial (from_where knight_to_f3))
                   (resolved RefEngine.initial (to_where knight_to_f3))) /\
    map rejected_pair (rejected_moves cmd) =
      filter (refused RefEngine.initial (captures knight_to_f3)
                (promote_piece_of knight_to_f3))
        (list_prod (resolved RefEngine.initial (from_where knight_to_f3))
                   (resolved RefEngine.initial (to_where knight_to_f3))) /\
    (List.length (candidate_moves cmd) + List.length (rejected_moves cmd) =
     List.length (list_prod (resolved RefEngine.initial (from_where knight_to_f3))
                            (resolved RefEngine.initial (to_where knight_to_f3))))%nat.
Proof.
  assert (Hfrom : wf_spec (from_where knight_to_f3))
    by (repeat split; reflexivity).
  assert (Hto : wf_spec (to_where knight_to_f3))
    by (repeat split; reflexivity).
  assert (Hocc : forall f t,
     In (f, t) (list_prod (resolved RefEngine.initial (from_where knight_to_f3))
                          (resolved RefEngine.initial (to_where knight_to_f3))) ->
     engine_verdict RefEngine.initial (captures knight_to_f3)
       (promote_piece_of knight_to_f3) (f, t) = None ->
     piece_at RefEngine.initial f <> None).
  { intros f t Hin _. vm_compute in Hin.
    destruct Hin as [E | [E | []]]; inversion E; subst f;
      vm_compute; discriminate. }
  split; [exact Hfrom |]. split; [exact Hto |]. split; [exact Hocc |].
  exact (consider_moves_partition knight_to_f3 RefEngine.initial
           Hfrom Hto Hocc).
Defined.

(** C1, the claim as stated fails: on the initial position e2-e4 is legal
    and captures nothing; asked for with capture intent, the pair is not
    dropped but stands in the rejected list. *)
Lemma capture_mismatch_is_rejected :
  find_move RefEngine.initial E2 E4 None = Some (mkMove E2 E4 None) /\
  is_capture RefEngine.initial (mkMove E2 E4 None) = false /\
  exists cmd,
    consider_moves e2_takes_e4 RefEngine.initial = (Ok cmd, RefEngine.initial) /\
    candidate_moves cmd = [] /\
    map rejected_pair (rejected_moves cmd) = [(E2, E4)].
Proof.
  split; [vm_compute; reflexivity |]. split; [vm_compute; reflexivity |].
  eexists. split; [vm_compute; reflexivity |]. split; reflexivity.
Qed.

(** ** Castling: what is rejected and what is said about it *)

Section Castling.
Context {Board : Type} `{RulesEngine Board}.

Lemma castle_conditions_attrs (self : CastleMove) (f th t : Square)
  (b b' : Board) (r : CastleMove) :
  cm_side self = "king" \/ cm_side self = "queen" ->
  castle_conditions self f th t b = (Ok r, b') ->
  castle_attrs_set r.
Proof.
  intros Hside. unfold castle_conditions.
  assert (Hgo : forall right self',
    cm_right_to_castle self' = Some right ->
    (right_to_castle <- lift_result (getattr (cm_right_to_castle self')) ;;
     if right_to_castle : bool then
       blocking <- blocking_squares f th ;;
       occupant <- gets (fun b => piece_at b t) ;;
       let blocking :=
         if is_some occupant then sqs_ior blocking t else blocking in
       through_check <-
         gets (fun b => is_attacked_by b (negb (turn b)) th) ;;
       into_check <-
         gets (fun b => is_attacked_by b (negb (turn b)) t) ;;
       ret (mkCastleMove (cm_side self') (cm_in_check self')
              (cm_right_to_castle self') (Some blocking)
              (Some through_check) (Some into_check))
     else ret self') b = (Ok r, b') ->
    castle_attrs_set r).
  { intros right self' Hright. rewrite Hright. cbn [getattr].
    rewrite bind_lift_ok. destruct right.
    - unfold bind at 1.
      destruct (blocking_squares f th b) as [[bl|e] b1]; [| discriminate].
      rewrite !bind_gets. unfold ret. intros [= <- _].
      unfold castle_attrs_set. cbn.
      repeat split; discriminate.
    - unfold ret. intros [= <- _].
      unfold castle_attrs_set. now rewrite Hright. }
  destruct Hside as [-> | ->]; cbn [String.eqb Ascii.eqb Bool.eqb];
    rewrite bind_gets_ret; eapply Hgo; reflexivity.
Qed.

Lemma CastleMove_init_attrs (wanted : string) (b b' : Board) (r : CastleMove) :
  wanted = "king" \/ wanted = "queen" ->
  CastleMove_init wanted b = (Ok r, b') -> castle_attrs_set r.
Proof.
  intros Hside. unfold CastleMove_init. rewrite !bind_gets.
  destruct Hside as [-> | ->]; cbn [String.eqb Ascii.eqb Bool.eqb];
    destruct (Bool.eqb (turn b) WHITE);
    apply castle_conditions_attrs; cbn; auto.
Qed.

Lemma castle_try_attrs wanted notation side0 cs rs (b b' : Board) cs' rs' :
  wanted = "king" \/ wanted = "queen" ->
  Forall castle_attrs_set rs ->
  castle_try wanted notation side0 (cs, rs) b = (Ok (cs', rs'), b') ->
  Forall castle_attrs_set rs'.
Proof.
  intros Hside Hrs. unfold castle_try, try_except_ValueError.
  assert (Hreject : forall b0,
    (reject <- CastleMove_init wanted ;; ret (cs, rs ++ [reject])) b0
      = (Ok (cs', rs'), b') -> Forall castle_attrs_set rs').
  { intros b0. unfold bind.
    destruct (CastleMove_init wanted b0) as [[r|e] b1] eqn:Einit;
      [| discriminate].
    unfold ret. intros [= _ <- _]. apply Forall_app. split; [exact Hrs |].
    constructor; [| constructor].
    exact (CastleMove_init_attrs wanted b0 b1 r Hside Einit). }
  destruct (opt_string_eqb side0 (Some wanted) || negb (truthy side0)).
  - rewrite bind_gets.
    destruct (parse_san b notation) as [m|].
    + unfold ret. now intros [= _ <- _].
    + unfold raise. apply Hreject.
  - unfold ret. now intros [= _ <- _].
Qed.

Lemma castle_consider_moves_attrs (self cmd : CastleCommand) (b b' : Board) :
  castle_consider_moves self b = (Ok cmd, b') ->
  Forall castle_attrs_set (castle_rejected_moves cmd).
Proof.
  unfold castle_consider_moves, bind.
  destruct (castle_try "king" "O-O" (side self) ([], []) b)
    as [[[cs1 rs1]|e] b1] eqn:E1; [| discriminate].
  destruct (castle_try "queen" "O-O-O" (side self) (cs1, rs1) b1)
    as [[[cs2 rs2]|e] b2] eqn:E2; [| discriminate].
  unfold ret. intros [= <- _]. cbn.
  eapply castle_try_attrs; [| | exact E2]; [now right |].
  eapply castle_try_attrs; [| | exact E1]; [now left | constructor].
Qed.
End Castling.

Lemma filter_nil_existsb {A} (f : A -> bool) (l : list A) :
  existsb f l = match filter f l with [] => false | _ :: _ => true end.
Proof.
  induction l as [|x l IH]; simpl; [reflexivity |].
  destruct (f x); simpl; [reflexivity | exact IH].
Qed.

Lemma filter_r_total {A} (test : A -> result bool) (f : A -> bool)
  (l : list A) :
  Forall (fun x => test x = Ok (f x)) l -> filter_r test l = Ok (filter f l).
Proof.
  induction 1 as [|x l Hx Hl IH]; simpl; [reflexivity |].
  rewrite Hx, IH. simpl. destruct (f x); reflexivity.
Qed.

Lemma said_nil {Board} (w : World Board) : said w [] = w.
Proof. destruct w. unfold said. simpl. now rewrite app_nil_r. Qed.

Lemma said_app {Board} (w : World Board) (l1 l2 : list string) :
  said (said w l1) l2 = said w (l1 ++ l2).
Proof. unfold said. simpl. now rewrite app_assoc. Qed.

Lemma say_if_any_total {Board} (test : CastleMove -> result bool)
  (f : CastleMove -> bool) (rejects : list CastleMove) (sentence : string)
  (w : World Board) :
  Forall (fun x => test x = Ok (f x)) rejects ->
  say_if_any test rejects sentence w =
    (Ok tt, said w (if existsb f rejects then [sentence] else [])).
Proof.
  intros Hall. unfold say_if_any.
  rewrite (filter_r_total test f rejects Hall), bind_lift_ok.
  rewrite filter_nil_existsb.
  destruct (filter f rejects); [now rewrite said_nil | reflexivity].
Qed.

Lemma explain_no_castle_attrs_set {Board} (cmd : CastleCommand)
  (w : World Board) :
  Forall castle_attrs_set (castle_rejected_moves cmd) ->
  explain_no_castle cmd w =
    (Ok tt, said w (castle_sentences (castle_rejected_moves cmd))).
Proof.
  intros Hall. unfold explain_no_castle, castle_sentences.
  set (rejects := castle_rejected_moves cmd) in *.
  rewrite (filter_r_total _ lacks_right rejects), bind_lift_ok; cycle 1.
  { eapply Forall_impl; [| exact Hall]. intros r Hr.
    unfold castle_attrs_set, lacks_right in *.
    destruct (cm_right_to_castle r) as [[|]|]; [reflexivity .. | contradiction]. }
  rewrite filter_nil_existsb.
  destruct (filter lacks_right rejects) as [|r0 l0] eqn:Hlack; [| reflexivity].
  assert (Hfull : Forall (fun r =>
            cm_right_to_castle r = Some true /\
            cm_blocking_pieces r <> None /\ cm_through_check r <> None /\
            cm_into_check r <> None) rejects).
  { rewrite Forall_forall in Hall |- *. intros r Hin.
    specialize (Hall r Hin). unfold castle_attrs_set in Hall.
    destruct (cm_right_to_castle r) as [[|]|] eqn:Hr;
      [tauto | | contradiction].
    assert (Hin' : In r (filter lacks_right rejects)).
    { apply filter_In. split; [exact Hin |].
      unfold lacks_right. now rewrite Hr. }
    rewrite Hlack in Hin'. destruct Hin'. }
  assert (Hblocked : Forall (fun r =>
            rbind (getattr (cm_blocking_pieces r))
                  (fun bb => Ok (negb (bb =? 0))) = Ok (path_blocked r)) rejects).
  { eapply Forall_impl; [| exact Hfull]. intros r (_ & Hb & _).
    unfold path_blocked. destruct (cm_blocking_pieces r); [reflexivity | tauto]. }
  assert (Hin_check : Forall (fun r : CastleMove =>
            Ok (cm_in_check r) = Ok (cm_in_check r)) rejects).
  { apply Forall_forall. reflexivity. }
  assert (Hthrough : Forall (fun r =>
            getattr (cm_through_check r) = Ok (through_check r)) rejects).
  { eapply Forall_impl; [| exact Hfull]. intros r (_ & _ & Ht & _).
    unfold through_check. destruct (cm_through_check r); [reflexivity | tauto]. }
  assert (Hinto : Forall (fun r =>
            getattr (cm_into_check r) = Ok (into_check r)) rejects).
  { eapply Forall_impl; [| exact Hfull]. intros r (_ & _ & _ & Hi).
    unfold into_check. destruct (cm_into_check r); [reflexivity | tauto]. }
  rewrite (bind_ok _ (say_if_any_total _ _ rejects _ w Hblocked)).
  rewrite (bind_ok _ (say_if_any_total _ _ rejects _ _ Hin_check)).
  rewrite (bind_ok _ (say_if_any_total _ _ rejects _ _ Hthrough)).
  rewrite (say_if_any_total _ _ rejects _ _ Hinto).
  now rewrite !said_app.
Qed.

(** C3 (as amended): for a castle command as resolution leaves it, the
    explanation never fails and says: the sentence about the lost castling
    right alone when some reject has lost the right; otherwise one sentence
    for each of blocked path, king in check, castling through check and
    castling into check that some reject meets, in that order -- up to four
    sentences, not at most one. *)
Theorem explain_no_castle_sentences {Board : Type} `{RulesEngine Board}
  (self cmd : CastleCommand) (b : Board) (w : World Board) :
  castle_consider_moves self b = (Ok cmd, b) ->
  explain_no_castle cmd w =
    (Ok tt, said w (castle_sentences (castle_rejected_moves cmd))).
Proof.
  intros Hresolved. apply explain_no_castle_attrs_set.
  exact (castle_consider_moves_attrs self cmd b b Hresolved).
Qed.

Lemma explain_no_castle_sentences_witness :
  castle_consider_moves castle_short castle_position =
    (Ok castle_short_resolved, castle_position) /\
  explain_no_castle castle_short_resolved (fresh_world castle_position) =
    (Ok tt, said (fresh_world castle_position)
              (castle_sentences (castle_rejected_moves castle_short_resolved))).
Proof.
  assert (Hresolved : castle_consider_moves castle_short castle_position =
                      (Ok castle_short_resolved, castle_position))
    by (vm_compute; reflexivity).
  split; [exact Hresolved |].
  exact (explain_no_castle_sentences castle_short castle_short_resolved
           castle_position (fresh_world castle_position) Hresolved).
Defined.

(** C3, the claim as stated fails: white's king on e1 and rook on h1 have
    the right to castle, the bishop on f1 blocks the way and a black rook
    attacks g1.  "castle short" resolves to no candidate and one reject,
    and the explanation has two sentences. *)
Lemma castle_explanation_two_sentences :
  fst (decipher_request recursion_limit "castle short" castle_position) =
    Ok (Command (Castle castle_short_resolved)) /\
  castle_candidate_moves castle_short_resolved = [] /\
  List.length (castle_rejected_moves castle_short_resolved) = 1%nat /\
  w_spoken (snd (explain_no_castle castle_short_resolved
                   (fresh_world castle_position))) =
    ["The path between your king and rook is not clear of pieces.";
     "You're attempting to castle into check."].
Proof.
  split; [vm_compute; reflexivity |].
  split; [reflexivity |]. split; [reflexivity |].
  vm_compute; reflexivity.
Qed.

(** ** Defects shown by running the code *)

(** C4 (fails on the code): on the initial position the rook's way from a1
    to a3 is feasible and the only occupied square between is a2; the
    destination is empty.  [blocking_squares] adds the square number 8 to
    the set as a mask, and answers the set holding d1. *)
Theorem blocking_squares_reads_square_as_mask :
  is_possible_move (piece_at RefEngine.initial A1) A1 A3 = Ok true /\
  filter (fun s => is_some (piece_at RefEngine.initial s))
         (scan_forward (between A1 A3)) = [A2] /\
  piece_at RefEngine.initial A3 = None /\
  exists bb,
    blocking_squares A1 A3 RefEngine.initial = (Ok bb, RefEngine.initial) /\
    scan_forward bb = [D1].
Proof.
  split; [vm_compute; reflexivity |].
  split; [vm_compute; reflexivity |].
  split; [vm_compute; reflexivity |].
  exists (BB_SQUARE D1). split; vm_compute; reflexivity.
Qed.

(** C6 (fails on the code): "e three e four" on the initial position.  The
    origin e3 is empty, the engine finds no legal move, and building the
    rejected move reads the type of the piece on e3: [AttributeError]. *)
Theorem unoccupied_origin_raises :
  piece_at RefEngine.initial E3 = None /\
  find_move RefEngine.initial E3 E4 None = None /\
  decipher_request recursion_limit "e three e four" RefEngine.initial =
    (Raise AttributeError, RefEngine.initial).
Proof.
  split; [vm_compute; reflexivity |].
  split; vm_compute; reflexivity.
Qed.

(** C8 (fails on the code): with no move played yet, "knight takes" reaches
    [take_last], whose read of the last move raises the engine's own
    [IndexError]; the bare "takes" yields no specification at all and
    raises [IndexError] at [locations[0]]. *)
Theorem takes_without_history_raises :
  peek RefEngine.initial = None /\
  decipher_request recursion_limit "knight takes" RefEngine.initial =
    (Raise IndexError, RefEngine.initial) /\
  locations_in_tokens recursion_limit ["takes"] WHITE = Ok [] /\
  decipher_request recursion_limit "takes" RefEngine.initial =
    (Raise IndexError, RefEngine.initial).
Proof.
  split; [vm_compute; reflexivity |].
  split; [vm_compute; reflexivity |].
  split; vm_compute; reflexivity.
Qed.

(** C7, the claim as stated fails: the tokens "e2" and "e4" are no words of
    the parser, no specification is found, and [locations[0]] raises. *)
Lemma e2_e4_in_digits_raises :
  locations_in_tokens recursion_limit (split "e2 e4")
    (turn RefEngine.initial) = Ok [] /\
  decipher_request recursion_limit "e2 e4" RefEngine.initial =
    (Raise IndexError, RefEngine.initial).
Proof. split; vm_compute; reflexivity. Qed.

(** ** The square-set resolver *)

Lemma testbit_BB_ALL (s : Square) :
  Z.testbit BB_ALL s = true <-> 0 <= s < 64.
Proof. change BB_ALL with (Z.ones 64). apply Z.ones_spec_iff. lia. Qed.

Lemma testbit_BB_SQUARE (x s : Square) :
  0 <= x -> Z.testbit (BB_SQUARE x) s = (x =? s).
Proof.
  intros Hx. unfold BB_SQUARE. rewrite Z.shiftl_1_l.
  apply Z.pow2_bits_eqb, Hx.
Qed.

Lemma testbit_bb_of_list (l : list Square) (s : Square) :
  (forall x, In x l -> 0 <= x) ->
  (Z.testbit (bb_of_list l) s = true <-> In s l).
Proof.
  induction l as [|x l IH]; intros Hpos; simpl.
  - rewrite Z.bits_0. split; [discriminate | tauto].
  - rewrite Z.lor_spec, orb_true_iff, testbit_BB_SQUARE, Z.eqb_eq
      by (apply Hpos; now left).
    rewrite IH by (intros y Hy; apply Hpos; now right). tauto.
Qed.

Lemma testbit_sqs_and (a x : Z) (s : Square) :
  Z.testbit (sqs_and a x) s =
  Z.testbit x s && Z.testbit BB_ALL s && Z.testbit a s.
Proof. unfold sqs_and, SquareSet. now rewrite !Z.land_spec. Qed.

Lemma testbit_SquareSet (x : Z) (s : Square) :
  Z.testbit (SquareSet x) s = Z.testbit x s && Z.testbit BB_ALL s.
Proof. unfold SquareSet. now rewrite Z.land_spec. Qed.

Lemma Piece_eqb_eq (p q : Piece) : Piece_eqb p q = true <-> p = q.
Proof.
  destruct p as [pt c], q as [qt d]. unfold Piece_eqb. simpl.
  rewrite andb_true_iff, eqb_true_iff. split.
  - intros [Ht ->]. destruct pt, qt; try discriminate; reflexivity.
  - intros [= -> ->]. split; [destruct qt |]; reflexivity.
Qed.

Lemma dict_get_In {V} (d : list (string * V)) (k : string) (v : V) :
  dict_get d k = Some v -> In (k, v) d.
Proof.
  induction d as [|[k' v'] d IH]; simpl; [discriminate |].
  destruct (String.eqb k k') eqn:E.
  - apply String.eqb_eq in E. intros [= ->]. left. now subst.
  - intros Hget. right. exact (IH Hget).
Qed.

Lemma files_table :
  forallb (fun kv => forallb (fun s =>
    Bool.eqb (Z.testbit (snd kv) s) (String.eqb (file_name s) (fst kv)))
    SQUARES) FILES = true.
Proof. vm_compute. reflexivity. Qed.

Lemma ranks_table :
  forallb (fun kv => forallb (fun s =>
    Bool.eqb (Z.testbit (snd kv) s) (String.eqb (rank_name s) (fst kv)))
    SQUARES) RANKS = true.
Proof. vm_compute. reflexivity. Qed.

Lemma testbit_file (f : string) (bbf : Bitboard) (s : Square) :
  dict_get FILES f = Some bbf -> 0 <= s < 64 ->
  (Z.testbit bbf s = true <-> file_name s = f).
Proof.
  intros Hget Hs. apply dict_get_In in Hget.
  pose proof files_table as T. rewrite forallb_forall in T.
  specialize (T _ Hget). cbn [fst snd] in T.
  pose proof (forall_squares _ T s Hs) as E. cbv beta in E.
  apply eqb_prop in E. rewrite E. apply String.eqb_eq.
Qed.

Lemma testbit_rank (r : string) (bbr : Bitboard) (s : Square) :
  dict_get RANKS r = Some bbr -> 0 <= s < 64 ->
  (Z.testbit bbr s = true <-> rank_name s = r).
Proof.
  intros Hget Hs. apply dict_get_In in Hget.
  pose proof ranks_table as T. rewrite forallb_forall in T.
  specialize (T _ Hget). cbn [fst snd] in T.
  pose proof (forall_squares _ T s Hs) as E. cbv beta in E.
  apply eqb_prop in E. rewrite E. apply String.eqb_eq.
Qed.

Lemma dict_in_get {V} (d : list (string * V)) (k : string) :
  dict_in d k = true -> exists v, dict_get d k = Some v.
Proof.
  unfold dict_in. destruct (dict_get d k) as [v|]; [eauto | discriminate].
Qed.

Lemma key_truthy {V} (d : list (string * V)) (k : string) :
  dict_in d "" = false -> dict_in d k = true -> truthy (Some k) = true.
Proof.
  intros Hempty Hin. simpl. destruct (String.eqb k "") eqn:E; [| reflexivity].
  apply String.eqb_eq in E. subst k. congruence.
Qed.

Section ResolverFacts.
Context {Board : Type} `{RulesEngine Board}.

Lemma testbit_pieces (b : Board) (pt : PieceType) (c : Color) (s : Square) :
  Z.testbit (pieces b pt c) s = true <->
  0 <= s < 64 /\ piece_at b s = Some (mkPiece pt c).
Proof.
  unfold pieces. rewrite testbit_bb_of_list.
  - rewrite filter_In. split.
    + intros [Hin Hp]. split; [now apply SQUARES_range |].
      destruct (piece_at b s) as [p|]; [| discriminate].
      apply Piece_eqb_eq in Hp. now subst.
    + intros [Hs Hp]. split; [now apply in_SQUARES |].
      rewrite Hp. now apply Piece_eqb_eq.
  - intros x Hx. apply filter_In in Hx. destruct Hx as [Hx _].
    apply SQUARES_range in Hx. lia.
Qed.
End ResolverFacts.

Section ResolverExact.
Context {Board : Type} `{RulesEngine Board}.

Ltac keys_known :=
  repeat match goal with
         | Hin : opt_in ?d (Some ?k) = true |- _ =>
             cbn [opt_in] in Hin;
             let T := fresh "T" in
             let v := fresh "v" in
             let G := fresh "G" in
             pose proof (key_truthy d k eq_refl Hin) as T;
             destruct (dict_in_get d k Hin) as [v G];
             clear Hin
         | Hin : opt_in _ None = true |- _ => clear Hin
         end.

(** C5: for a specification that satisfies the constructor's invariant the
    resolver returns, and the set it returns holds exactly the squares of
    the board that match: for a bare file, the squares of that file holding
    a pawn of the given colour; for the empty specification, all 64
    squares; otherwise the squares that hold the given piece kind in the
    given colour (if a kind is set), lie on the given file (if set) and on
    the given rank (if set). *)
Theorem find_candidate_squares_exact (spec : SpecificSquares) (b : Board) :
  wf_spec spec ->
  exists bb,
    find_candidate_squares spec b = (Ok bb, b) /\
    forall s, Z.testbit bb s = true <-> 0 <= s < 64 /\ matches b spec s.
Proof.
  intros (Hp & Hf & Hr). destruct spec as [c pk fl rk].
  cbn [ss_piece ss_file ss_rank] in Hp, Hf, Hr.
  unfold find_candidate_squares, matches, holds_piece.
  cbn [ss_piece ss_file ss_rank ss_color].
  destruct pk as [p|], fl as [f|], rk as [r|]; keys_known;
    repeat match goal with T : truthy _ = true |- _ => rewrite T; clear T end;
    cbn [truthy negb andb opt_index]; unfold dict_index;
    repeat match goal with G : dict_get _ _ = Some _ |- _ => rewrite G end;
    cbv [bind lift_result gets ret];
    (eexists; split; [reflexivity |]); intros s;
    rewrite ?testbit_sqs_and, ?testbit_SquareSet, ?andb_true_iff,
      ?testbit_BB_ALL, ?testbit_pieces;
    (split; [intros Hbits; assert (Hs : 0 <= s < 64) by tauto
            | intros [Hs Hm]]);
    repeat match goal with
           | G : dict_get FILES ?f = Some ?v |- _ =>
               pose proof (testbit_file f v s G Hs); clear G
           | G : dict_get RANKS ?r = Some ?v |- _ =>
               pose proof (testbit_rank r v s G Hs); clear G
           end.
  all: try match goal with
           | Hm : _ /\ _ /\ _ |- _ => destruct Hm as (Hk & Hfl & Hrk)
           end;
    repeat match goal with
           | Hk : forall k, Some ?p = Some k -> _ |- _ =>
               specialize (Hk p eq_refl)
           | Hk : forall k, None = Some k -> _ |- _ => clear Hk
           | Hk : exists pt, dict_get PIECES ?p = Some pt /\ _,
             G : dict_get PIECES ?p = Some ?v |- _ =>
               let pt := fresh "pt" in
               let Hg := fresh "Hg" in
               destruct Hk as (pt & Hg & Hk);
               rewrite G in Hg; injection Hg as <-
           end;
    try tauto.
  all: (split; [exact Hs |]);
    repeat match goal with
           | |- _ /\ _ => split
           | |- forall k, Some _ = Some k -> _ => intros ? [= <-]
           | |- forall k, None = Some k -> _ => intros ? [=]
           | |- exists pt, dict_get PIECES ?p = Some pt /\ _ =>
               eexists; split; [eassumption |]
           end; tauto.
Qed.
End ResolverExact.

Lemma find_candidate_squares_exact_witness :
  wf_spec white_knights /\
  exists bb,
    find_candidate_squares white_knights RefEngine.initial =
      (Ok bb, RefEngine.initial) /\
    forall s, Z.testbit bb s = true <->
              0 <= s < 64 /\ matches RefEngine.initial white_knights s.
Proof.
  assert (Hwf : wf_spec white_knights) by (split; [| split]; reflexivity).
  split; [exact Hwf |].
  exact (find_candidate_squares_exact white_knights RefEngine.initial Hwf).
Defined.

Example resolve_white_knights :
  resolved RefEngine.initial white_knights = [B1; G1].
Proof. vm_compute. reflexivity. Qed.

Example resolve_empty_specification :
  resolved RefEngine.initial (mkSpecificSquares WHITE None None None) = SQUARES.
Proof. vm_compute. reflexivity. Qed.

(** ** A request from parsing to the board *)

Lemma locations_e_two_e_four (d : nat) (t : bool) :
  locations_in_tokens (S (S (S d))) ["e"; "two"; "e"; "four"] t =
  Ok [mkSpecificSquares t None (Some "e") (Some "2");
      mkSpecificSquares (negb t) None (Some "e") (Some "4")].
Proof. reflexivity. Qed.

Section RoundTrip.
Context {Board : Type} `{RulesEngine Board}.

Lemma resolve_e2_and_e4 (b : Board) (c : Color) :
  find_candidate_squares (mkSpecificSquares c None (Some "e") (Some "2")) b
    = (Ok (BB_SQUARE E2), b) /\
  find_candidate_squares (mkSpecificSquares c None (Some "e") (Some "4")) b
    = (Ok (BB_SQUARE E4), b).
Proof. split; vm_compute; reflexivity. Qed.

Lemma consider_moves_e2_e4 (b : Board) (c1 c2 : Color) (m : Move) :
  find_move b E2 E4 None = Some m ->
  consider_moves
    (CommandMove_init (mkSpecificSquares c1 None (Some "e") (Some "2"))
                      (mkSpecificSquares c2 None (Some "e") (Some "4"))
                      false None) b =
  (Ok (mkCommandMove (mkSpecificSquares c1 None (Some "e") (Some "2"))
                     (mkSpecificSquares c2 None (Some "e") (Some "4"))
                     false None [m] []), b).
Proof.
  intros Hfind. unfold consider_moves, CommandMove_init.
  cbn [from_where to_where captures promotes_to].
  destruct (resolve_e2_and_e4 b c1) as [Efrom _].
  destruct (resolve_e2_and_e4 b c2) as [_ Eto].
  rewrite (bind_ok _ Efrom), (bind_ok _ Eto).
  change (scan_forward (BB_SQUARE E2)) with [E2].
  change (scan_forward (BB_SQUARE E4)) with [E4].
  assert (V : engine_verdict b false None (E2, E4) = Some m).
  { unfold engine_verdict. cbn [fst snd]. now rewrite Hfind. }
  destruct (outer_loop b false None [E4] [E2] [] []) as [rs [Eloop Hrs]].
  { intros f t [[= <- <-] | []] Hnone. congruence. }
  rewrite (bind_ok _ Eloop).
  cbn [list_prod map app flat_map filter] in Hrs |- *.
  unfold accepted, refused in *. rewrite V in *. cbn [is_some negb] in Hrs.
  apply map_eq_nil in Hrs. subst rs. reflexivity.
Qed.

(** C7 (as amended): the request as it is spoken, "e two e four", on any
    board where the engine finds the move e2-e4 (the initial position is
    one), parses -- given three frames of recursion -- to a directional
    command whose only candidate is the move the engine found, with no
    reject and the board untouched; responding to that command leaves the
    board the engine gets by pushing that move. *)
Theorem e_two_e_four_round_trip (b : Board) (m : Move) (depth : nat)
  (w : World Board) :
  (3 <= depth)%nat ->
  find_move b E2 E4 None = Some m ->
  w_board w = b ->
  exists cmd,
    decipher_request depth "e two e four" b =
      (Ok (Command (Directional cmd)), b) /\
    candidate_moves cmd = [m] /\ rejected_moves cmd = [] /\
    w_board (snd (respond_to_command (Directional cmd) w)) = push b m.
Proof.
  intros Hdepth Hfind Hw.
  destruct depth as [|[|[|d]]]; try lia.
  unfold decipher_request.
  change (String.eqb "e two e four" "why") with false. cbv iota.
  change (split "e two e four") with ["e"; "two"; "e"; "four"].
  cbv zeta.
  change (str_in "castle" ["e"; "two"; "e"; "four"]) with false. cbv iota.
  change (intersects ["e"; "two"; "e"; "four"] TAKE_TOKENS) with false.
  change (intersects ["e"; "two"; "e"; "four"] PROMOTE_TOKENS) with false.
  cbv iota.
  rewrite bind_ret, bind_gets, locations_e_two_e_four, bind_lift_ok.
  cbn [List.length Nat.eqb index nth_error].
  repeat (rewrite bind_assoc || rewrite bind_lift_ok || rewrite bind_ret).
  rewrite (bind_ok _ (consider_moves_e2_e4 b _ _ m Hfind)).
  eexists. split; [reflexivity |]. split; [reflexivity |].
  split; [reflexivity |].
  rewrite respond_to_command_board. cbn [command_candidates candidate_moves].
  now rewrite Hw.
Qed.
End RoundTrip.

Lemma e_two_e_four_round_trip_witness :
  (3 <= recursion_limit)%nat /\
  find_move RefEngine.initial E2 E4 None = Some (mkMove E2 E4 None) /\
  w_board (fresh_world RefEngine.initial) = RefEngine.initial /\
  exists cmd,
    decipher_request recursion_limit "e two e four" RefEngine.initial =
      (Ok (Command (Directional cmd)), RefEngine.initial) /\
    candidate_moves cmd = [mkMove E2 E4 None] /\ rejected_moves cmd = [] /\
    w_board (snd (respond_to_command (Directional cmd)
                    (fresh_world RefEngine.initial))) =
      push RefEngine.initial (mkMove E2 E4 None).
Proof.
  assert (Hdepth : (3 <= recursion_limit)%nat) by (unfold recursion_limit; lia).
  assert (Hfind : find_move RefEngine.initial E2 E4 None =
                  Some (mkMove E2 E4 None)) by (vm_compute; reflexivity).
  split; [exact Hdepth |]. split; [exact Hfind |]. split; [reflexivity |].
  exact (e_two_e_four_round_trip RefEngine.initial (mkMove E2 E4 None)
           recursion_limit (fresh_world RefEngine.initial)
           Hdepth Hfind eq_refl).
Defined.

(** ** The parser returns when no token is a bare digit

    The self-call on the same list only happens for a first token that is a
    key of [RANKS]; without such tokens every self-call is on a strictly
    shorter list, and one frame more than there are tokens is enough. *)

Lemma In_skipn_original {A} (x : A) (n : nat) (l : list A) :
  In x (skipn n l) -> In x l.
Proof.
  intros Hin. rewrite <- (firstn_skipn n l). apply in_or_app. now right.
Qed.

Lemma skipn_step {A} (i : nat) (l : list A) (x : A) (rest : list A) :
  skipn i l = x :: rest -> skipn (S i) l = rest /\ In x l /\ (i < List.length l)%nat.
Proof.
  revert l. induction i as [|i IH]; intros l E.
  - simpl in E. subst l. simpl. repeat split; [now left | lia].
  - destruct l as [|y l]; [discriminate |]. simpl in E.
    destruct (IH l E) as (E' & Hin & Hlt).
    split; [exact E' |]. split; [now right | simpl; lia].
Qed.

Lemma scan_tokens_returns
  (recurse : list string -> bool -> result (list SpecificSquares))
  (tokens : list string) (turn : bool) :
  (forall t, In t tokens -> dict_in RANKS t = false) ->
  (forall i t, (0 < i)%nat -> exists l, recurse (skipn i tokens) t = Ok l) ->
  forall rest i loc,
    skipn i tokens = rest ->
    (i = 0%nat -> fresh_loc loc) ->
    exists r, scan_tokens recurse tokens turn i rest loc = Ok r.
Proof.
  intros Hnodigit Hrec.
  induction rest as [|token rest IH]; intros i loc Hskip Hfresh;
    cbn [scan_tokens].
  - eauto.
  - destruct (skipn_step i tokens token rest Hskip) as (Hnext & Hin & _).
    assert (Hlater : S i = 0%nat -> forall loc', fresh_loc loc') by discriminate.
    destruct (dict_in PIECES token && negb (ss_bool loc)) eqn:C1;
      [apply IH; [exact Hnext | intros E; exact (Hlater E _)] |].
    destruct (String.eqb token "on") eqn:C2;
      [apply IH; [exact Hnext | intros E; exact (Hlater E _)] |].
    destruct (dict_in FILES token && negb (truthy (ss_file loc))
              && negb (truthy (ss_rank loc))) eqn:C3;
      [apply IH; [exact Hnext | intros E; exact (Hlater E _)] |].
    destruct (dict_in WRITTEN_NUMS token && negb (truthy (ss_rank loc))) eqn:C4;
      [apply IH; [exact Hnext | intros E; exact (Hlater E _)] |].
    rewrite (Hnodigit token Hin), orb_false_r.
    destruct (dict_in PIECES token || dict_in FILES token) eqn:C5;
      cbn [negb].
    + destruct i as [|i].
      * exfalso. destruct (Hfresh eq_refl) as (Hb & Hf & Hr).
        rewrite Hb in C1. rewrite Hf, Hr in C3. cbn [negb] in C1, C3.
        rewrite !andb_true_r in *. rewrite C1, C3 in C5. discriminate.
      * destruct (Hrec (S i) (negb turn)) as [l ->]; [lia |].
        cbn [rbind]. eauto.
    + destruct (Hrec (S i) (negb turn)) as [l ->]; [lia |].
      cbn [rbind]. eauto.
Qed.

Lemma locations_in_tokens_returns :
  forall (n : nat) (tokens : list string),
    (List.length tokens <= n)%nat ->
    (forall t, In t tokens -> dict_in RANKS t = false) ->
    forall (depth : nat) (turn : bool),
      (List.length tokens < depth)%nat ->
      exists l, locations_in_tokens depth tokens turn = Ok l.
Proof.
  induction n as [|n IH]; intros tokens Hlen Hnodigit depth turn Hdepth.
  - destruct tokens; [| simpl in Hlen; lia].
    destruct depth; [lia |]. cbn. eauto.
  - destruct depth as [|d]; [lia |].
    destruct tokens as [|tok tokens']; [cbn; eauto |].
    remember (tok :: tokens') as tokens eqn:Etok.
    assert (Hpos : (0 < List.length tokens)%nat) by (subst tokens; simpl; lia).
    assert (Hunfold : locations_in_tokens (S d) tokens turn =
      rbind (scan_tokens (locations_in_tokens d) tokens turn 0%nat tokens
               (mkSpecificSquares turn None None None))
            (fun r => Ok (if ss_bool (fst r) then fst r :: snd r else snd r))).
    { subst tokens. reflexivity. }
    rewrite Hunfold.
    destruct (scan_tokens_returns (locations_in_tokens d) tokens turn Hnodigit)
      with (rest := tokens) (i := 0%nat)
           (loc := mkSpecificSquares turn None None None) as [r ->].
    + intros i t Hi. apply IH.
      * rewrite length_skipn. lia.
      * intros x Hx. apply Hnodigit. eapply In_skipn_original. exact Hx.
      * rewrite length_skipn. lia.
    + reflexivity.
    + intros _. repeat split.
    + cbn [rbind]. eauto.
Qed.

Section TakeLast.
Context {Board : Type} `{RulesEngine Board}.

Lemma take_last_without_history (taker : SpecificSquares)
  (say_promotes : option string) (b : Board) :
  peek b = None -> take_last taker say_promotes b = (Raise IndexError, b).
Proof. intros Hpeek. unfold take_last. now rewrite bind_gets, Hpeek. Qed.

(** No origin square, or no destination square: both lists stay empty. *)
Lemma consider_moves_nothing_resolved (self : CommandMove) (b : Board) :
  wf_spec (from_where self) -> wf_spec (to_where self) ->
  resolved b (from_where self) = [] \/ resolved b (to_where self) = [] ->
  exists cmd, consider_moves self b = (Ok cmd, b) /\
              candidate_moves cmd = [] /\ rejected_moves cmd = [].
Proof.
  intros Hfrom Hto. unfold resolved.
  destruct (find_candidate_squares_ok (from_where self) b Hfrom) as [fbb Ef].
  destruct (find_candidate_squares_ok (to_where self) b Hto) as [tbb Et].
  rewrite Ef, Et. cbn [fst]. intros Hempty.
  assert (Hprod : list_prod (scan_forward fbb) (scan_forward tbb) = []).
  { destruct Hempty as [-> | ->]; [reflexivity |].
    induction (scan_forward fbb); [reflexivity | exact IHl]. }
  destruct (outer_loop b (captures self) (promote_piece_of self)
              (scan_forward tbb) (scan_forward fbb) [] []) as [rs [Eloop Hrs]].
  { rewrite Hprod. intros f t []. }
  unfold consider_moves. rewrite (bind_ok _ Ef), (bind_ok _ Et).
  fold (promote_piece_of self). rewrite (bind_ok _ Eloop).
  rewrite Hprod in *. cbn [flat_map filter app fst snd] in *.
  apply map_eq_nil in Hrs. subst rs.
  eexists. split; [reflexivity |]. split; reflexivity.
Qed.
End TakeLast.

Example rook_to_a3_blocking_set :
  match fst (decipher_request recursion_limit "rook to a three"
               RefEngine.initial) with
  | Ok (Command (Directional cmd)) =>
      map (fun r => (rejected_pair r, scan_forward (rm_blocking_pieces r)))
          (rejected_moves cmd)
  | _ => []
  end = [((A1, A3), [D1]); ((H1, A3), [])].
Proof. vm_compute. reflexivity. Qed.

(** * Further properties of the code *)

(** ** Specifications and the resolver *)

(** X1: a specification is falsy (empty) exactly when its piece, file and
    rank are all unset. *)
Theorem ss_bool_false_iff_unset (s : SpecificSquares) :
  ss_bool s = false <->
  ss_piece s = None /\ ss_file s = None /\ ss_rank s = None.
Proof.
  destruct s as [c [p|] [f|] [r|]]; unfold ss_bool; cbn;
    rewrite ?andb_false_r, ?andb_true_r; cbn.
  all: split; [try discriminate | intros (Hp & Hf & Hr); try discriminate].
  all: try reflexivity; try tauto.
  all: destruct (String.eqb p f); cbn; discriminate.
Qed.

Lemma attr_known_index {V} (d : list (string * V)) (o : option string) :
  truthy o = true ->
  (attr_known d o = true -> exists v, opt_index d o = Ok v) /\
  (attr_known d o = false -> opt_index d o = Raise KeyError).
Proof.
  intros T. unfold attr_known. rewrite T. cbn [negb orb].
  destruct o as [k|]; [| discriminate]. cbn. unfold dict_in, dict_index.
  destruct (dict_get d k) as [v|]; split; intros E;
    try discriminate; eauto.
Qed.

Section ResolverErrors.
Context {Board : Type} `{RulesEngine Board}.

(** X2: the resolver returns exactly when every attribute that is set to a
    non-empty string is a key of its dictionary, and raises [KeyError]
    otherwise; it leaves the board as it was either way. *)
Theorem find_candidate_squares_key_errors (spec : SpecificSquares) (b : Board) :
  (attr_known PIECES (ss_piece spec) && attr_known FILES (ss_file spec)
   && attr_known RANKS (ss_rank spec) = true ->
   exists bb, find_candidate_squares spec b = (Ok bb, b)) /\
  (attr_known PIECES (ss_piece spec) && attr_known FILES (ss_file spec)
   && attr_known RANKS (ss_rank spec) = false ->
   find_candidate_squares spec b = (Raise KeyError, b)).
Proof.
  unfold find_candidate_squares.
  destruct (truthy (ss_file spec)) eqn:Tf;
    destruct (truthy (ss_piece spec)) eqn:Tp;
    destruct (truthy (ss_rank spec)) eqn:Tr;
    cbn [negb andb];
    try (destruct (attr_known_index FILES _ Tf) as [Fok Fko]);
    try (destruct (attr_known_index PIECES _ Tp) as [Pok Pko]);
    try (destruct (attr_known_index RANKS _ Tr) as [Rok Rko]);
    try (assert (Fk : attr_known FILES (ss_file spec) = true)
           by (unfold attr_known; now rewrite Tf));
    try (assert (Pk : attr_known PIECES (ss_piece spec) = true)
           by (unfold attr_known; now rewrite Tp));
    try (assert (Rk : attr_known RANKS (ss_rank spec) = true)
           by (unfold attr_known; now rewrite Tr));
    repeat match goal with
           | Hok : attr_known ?d ?o = true -> _ |- _ =>
               destruct (attr_known d o) eqn:?;
               [ destruct (Hok eq_refl) as [? ->]; clear Hok
               | match goal with
                 | Hko : false = false -> _ |- _ => rewrite (Hko eq_refl)
                 end; clear Hok ]
           | Hk : attr_known _ _ = true |- _ => rewrite Hk; clear Hk
           end;
    cbn [andb];
    (split; intros E; try discriminate; try (eexists; reflexivity);
     try reflexivity).
Qed.
End ResolverErrors.

(** ** Square names and the resolver *)

Lemma name_resolves_table :
  forallb (fun s =>
    match opt_index FILES (Some (file_name s)),
          opt_index RANKS (Some (rank_name s)) with
    | Ok fbb, Ok rbb =>
        (sqs_and (sqs_and (SquareSet BB_ALL) fbb) rbb =? BB_SQUARE s)
        && truthy (Some (file_name s)) && truthy (Some (rank_name s))
        && dict_in FILES (file_name s) && dict_in RANKS (rank_name s)
        && match scan_forward (BB_SQUARE s) with
           | [x] => x =? s
           | _ => false
           end
    | _, _ => false
    end) SQUARES = true.
Proof. vm_compute. reflexivity. Qed.

Lemma name_resolves (s : Square) :
  0 <= s < 64 ->
  exists fbb rbb,
    opt_index FILES (Some (file_name s)) = Ok fbb /\
    opt_index RANKS (Some (rank_name s)) = Ok rbb /\
    sqs_and (sqs_and (SquareSet BB_ALL) fbb) rbb = BB_SQUARE s /\
    truthy (Some (file_name s)) = true /\
    truthy (Some (rank_name s)) = true /\
    dict_in FILES (file_name s) = true /\
    dict_in RANKS (rank_name s) = true /\
    scan_forward (BB_SQUARE s) = [s].
Proof.
  intros Hs. pose proof (forall_squares _ name_resolves_table s Hs) as T.
  cbv beta in T.
  destruct (opt_index FILES (Some (file_name s))) as [fbb|]; [| discriminate].
  destruct (opt_index RANKS (Some (rank_name s))) as [rbb|]; [| discriminate].
  rewrite !andb_true_iff in T.
  destruct T as (((((Hbb & Tf) & Tr) & Kf) & Kr) & Hscan).
  exists fbb, rbb. apply Z.eqb_eq in Hbb.
  repeat (split; [first [reflexivity | assumption] |]).
  destruct (scan_forward (BB_SQUARE s)) as [|x [|y l]]; try discriminate.
  apply Z.eqb_eq in Hscan. now subst.
Qed.

Section NamedSquares.
Context {Board : Type} `{RulesEngine Board}.

Lemma resolve_named_square (b : Board) (c : Color) (s : Square) :
  0 <= s < 64 ->
  find_candidate_squares
    (mkSpecificSquares c None (Some (file_name s)) (Some (rank_name s))) b
    = (Ok (BB_SQUARE s), b).
Proof.
  intros Hs.
  destruct (name_resolves s Hs)
    as (fbb & rbb & Ef & Er & Ebb & Tf & Tr & _ & _ & _).
  unfold find_candidate_squares. cbn [ss_piece ss_file ss_rank ss_color].
  rewrite Tf, Tr, Ef, Er. cbn [truthy negb andb].
  cbv [bind lift_result ret]. now rewrite Ebb.
Qed.

(** X3: naming a square and resolving the name gives the square back: the
    specification made of the file letter and the rank digit of a square
    resolves, on every board and for either colour, to that square alone,
    occupied or not. *)
Theorem square_name_resolves_to_the_square (b : Board) (c : Color)
  (s : Square) :
  0 <= s < 64 ->
  find_candidate_squares
    (mkSpecificSquares c None (Some (file_name s)) (Some (rank_name s))) b
    = (Ok (BB_SQUARE s), b) /\
  scan_forward (BB_SQUARE s) = [s].
Proof.
  intros Hs. split; [exact (resolve_named_square b c s Hs) |].
  destruct (name_resolves s Hs) as (_ & _ & _ & _ & _ & _ & _ & _ & _ & Hscan).
  exact Hscan.
Qed.

(** X4: with a move on the stack whose destination is a square of the
    board, [take_last] returns a command that keeps the given origin
    specification, demands a capture, carries the promotion word, is not
    yet resolved, and whose destination specification has the colour of
    the side to move and resolves to the destination of the last move
    alone. *)
Theorem take_last_targets_last_destination (taker : SpecificSquares)
  (say_promotes : option string) (b : Board) (m : Move) :
  peek b = Some m -> 0 <= to_square m < 64 ->
  exists cmd,
    take_last taker say_promotes b = (Ok cmd, b) /\
    from_where cmd = taker /\ captures cmd = true /\
    promotes_to cmd = say_promotes /\
    candidate_moves cmd = [] /\ rejected_moves cmd = [] /\
    ss_color (to_where cmd) = turn b /\
    resolved b (to_where cmd) = [to_square m].
Proof.
  intros Hpeek Hs.
  destruct (name_resolves (to_square m) Hs)
    as (fbb & rbb & Ef & Er & Ebb & Tf & Tr & Kf & Kr & Hscan).
  unfold take_last. rewrite bind_gets, Hpeek, bind_gets.
  unfold SpecificSquares_init. cbn [opt_in negb]. rewrite Kf, Kr.
  cbn [negb]. rewrite bind_lift_ok.
  eexists. split; [reflexivity |].
  unfold CommandMove_init. cbn.
  repeat (split; [reflexivity |]).
  unfold resolved.
  cbn [to_where]. rewrite (resolve_named_square b (turn b) (to_square m) Hs).
  exact Hscan.
Qed.
End NamedSquares.

Lemma square_name_resolves_to_the_square_witness :
  0 <= E4 < 64 /\
  find_candidate_squares
    (mkSpecificSquares BLACK None (Some (file_name E4)) (Some (rank_name E4)))
    RefEngine.initial = (Ok (BB_SQUARE E4), RefEngine.initial) /\
  scan_forward (BB_SQUARE E4) = [E4].
Proof.
  assert (Hs : 0 <= E4 < 64) by (unfold E4; lia).
  split; [exact Hs |].
  exact (square_name_resolves_to_the_square RefEngine.initial BLACK E4 Hs).
Defined.

Lemma take_last_targets_last_destination_witness :
  peek after_e2_e4 = Some (mkMove E2 E4 None) /\
  0 <= to_square (mkMove E2 E4 None) < 64 /\
  exists cmd,
    take_last white_knights None after_e2_e4 = (Ok cmd, after_e2_e4) /\
    from_where cmd = white_knights /\ captures cmd = true /\
    promotes_to cmd = None /\
    candidate_moves cmd = [] /\ rejected_moves cmd = [] /\
    ss_color (to_where cmd) = turn after_e2_e4 /\
    resolved after_e2_e4 (to_where cmd) = [to_square (mkMove E2 E4 None)].
Proof.
  assert (Hpeek : peek after_e2_e4 = Some (mkMove E2 E4 None))
    by (vm_compute; reflexivity).
  assert (Hs : 0 <= to_square (mkMove E2 E4 None) < 64) by (cbn; unfold E4; lia).
  split; [exact Hpeek |]. split; [exact Hs |].
  exact (take_last_targets_last_destination white_knights None after_e2_e4
           (mkMove E2 E4 None) Hpeek Hs).
Defined.

(** ** Feasibility and the rejected move *)

Lemma reaches_table (pt : PieceType) (c : Color) :
  pt <> PAWN ->
  forallb (fun f => forallb (fun t =>
    match is_possible_move (Some (mkPiece pt c)) f t with
    | Ok r => Bool.eqb r (reaches pt f t)
    | Raise _ => false
    end) SQUARES) SQUARES = true.
Proof.
  intros Hpt. destruct pt; try contradiction; destruct c;
    vm_compute; reflexivity.
Qed.

(** X5: for a knight, bishop, rook, queen or king of either colour and two
    squares of the board, [is_possible_move] is true exactly for the
    piece's movement pattern: the knight's jump (file and rank distances 1
    and 2), the king's step (larger distance 1), the rook's line (exactly
    one distance zero), the bishop's diagonal (equal distances, not zero),
    the queen's line or diagonal.  It is never true for the square the
    piece stands on. *)
Theorem is_possible_move_pattern (pt : PieceType) (c : Color)
  (f t : Square) :
  pt <> PAWN -> 0 <= f < 64 -> 0 <= t < 64 ->
  is_possible_move (Some (mkPiece pt c)) f t = Ok (reaches pt f t) /\
  reaches pt f f = false.
Proof.
  intros Hpt Hf Ht. split.
  - pose proof (forall_squares2 _ (reaches_table pt c Hpt) f t Hf Ht) as E.
    cbv beta in E.
    destruct (is_possible_move (Some (mkPiece pt c)) f t) as [r|e];
      [| discriminate].
    apply eqb_prop in E. now subst.
  - unfold reaches. rewrite !Z.sub_diag. destruct pt; reflexivity.
Qed.

Lemma is_possible_move_pattern_witness :
  KNIGHT <> PAWN /\ 0 <= G1 < 64 /\ 0 <= F3 < 64 /\
  is_possible_move (Some (mkPiece KNIGHT WHITE)) G1 F3
    = Ok (reaches KNIGHT G1 F3) /\
  reaches KNIGHT G1 G1 = false.
Proof.
  assert (Hpt : KNIGHT <> PAWN) by discriminate.
  assert (Hf : 0 <= G1 < 64) by (unfold G1; lia).
  assert (Ht : 0 <= F3 < 64) by (unfold F3; lia).
  split; [exact Hpt |]. split; [exact Hf |]. split; [exact Ht |].
  exact (is_possible_move_pattern KNIGHT WHITE G1 F3 Hpt Hf Ht).
Defined.

Lemma lor_below_64_table :
  forallb (fun a => forallb (fun x =>
    (0 <=? Z.lor a (SquareSet x)) && (Z.lor a (SquareSet x) <? 64))
    SQUARES) SQUARES = true.
Proof. vm_compute. reflexivity. Qed.

Lemma sqs_ior_below_64 (acc sq : Z) :
  0 <= acc < 64 -> 0 <= sq < 64 -> 0 <= sqs_ior acc sq < 64.
Proof.
  intros Ha Hs.
  pose proof (forall_squares2 _ lor_below_64_table acc sq Ha Hs) as E.
  cbv beta in E. apply andb_true_iff in E. destruct E as [E1 E2].
  apply Z.leb_le in E1. apply Z.ltb_lt in E2. unfold sqs_ior. lia.
Qed.

Lemma scan_forward_range (bb : Bitboard) (s : Square) :
  In s (scan_forward bb) -> 0 <= s < 64.
Proof.
  unfold scan_forward. intros Hin. apply filter_In in Hin.
  apply SQUARES_range, Hin.
Qed.

Section Rejects.
Context {Board : Type} `{RulesEngine Board}.

Lemma blocking_mask_below_64 (b : Board) (p : Piece) (f t : Square) :
  0 <= t < 64 -> 0 <= blocking_mask b p f t < 64.
Proof.
  intros Ht. unfold blocking_mask.
  assert (Hfold : forall l acc,
            (forall s, In s l -> 0 <= s < 64) -> 0 <= acc < 64 ->
            0 <= fold_left (fun acc sq =>
                   if is_some (piece_at b sq) then sqs_ior acc sq else acc)
                 l acc < 64).
  { induction l as [|s l IH]; intros acc Hl Hacc; cbn [fold_left].
    - exact Hacc.
    - apply IH; [intros s' Hs'; apply Hl; now right |].
      destruct (is_some (piece_at b s)); [| exact Hacc].
      apply sqs_ior_below_64; [exact Hacc | apply Hl; now left]. }
  pose proof (Hfold (scan_forward (between f t)) (SquareSet 0)
                (scan_forward_range _)) as Hb.
  assert (H0 : 0 <= SquareSet 0 < 64) by (cbn; lia).
  specialize (Hb H0).
  destruct (piece_at b t) as [tp|]; [| exact Hb].
  destruct (Bool.eqb (color p) (color tp)); [| exact Hb].
  now apply sqs_ior_below_64.
Qed.

(** X6: with a piece on the origin square and a destination on the board,
    [blocking_squares] returns; the set it returns is the empty set when
    the move is not feasible, and in every case a mask below 64: only the
    squares a1 to f1 can be in it, wherever the blocking pieces stand. *)
Theorem blocking_squares_only_first_six_squares (b : Board) (p : Piece)
  (f t : Square) :
  piece_at b f = Some p -> 0 <= t < 64 ->
  exists bb,
    blocking_squares f t b = (Ok bb, b) /\ 0 <= bb < 64 /\
    (is_possible_move (Some p) f t = Ok false -> bb = 0) /\
    (forall s, Z.testbit bb s = true -> 0 <= s < 6).
Proof.
  intros Hp Ht.
  destruct (is_possible_move_some p f t) as [possible Hposs].
  rewrite (blocking_squares_occupied b p f t possible Hp Hposs).
  set (bb := if possible then blocking_mask b p f t else SquareSet 0).
  assert (Hbound : 0 <= bb < 64).
  { subst bb. destruct possible;
      [now apply blocking_mask_below_64 | cbn; lia]. }
  exists bb. split; [reflexivity |]. split; [exact Hbound |]. split.
  - rewrite Hposs. intros [= E]. subst bb possible. reflexivity.
  - intros s Hs.
    destruct (Z_lt_dec s 0) as [Hneg | Hnn];
      [rewrite Z.testbit_neg_r in Hs by exact Hneg; discriminate |].
    destruct (Z_lt_dec s 6) as [Hlt | Hge]; [lia |].
    destruct (Z.eq_dec bb 0) as [E0 | Hnz];
      [rewrite E0, Z.bits_0 in Hs; discriminate |].
    assert (Hlog : Z.log2 bb < 6).
    { apply Z.log2_lt_pow2; [lia |]. change (2 ^ 6) with 64. lia. }
    rewrite Z.bits_above_log2 in Hs; [discriminate | lia | lia].
Qed.

(** X7: the constructor of a rejected move raises [AttributeError] when the
    origin square is empty.  With a piece there it returns, leaves the
    board as it was, and the reject it builds has the two squares asked
    for, [possible] as [is_possible_move] answers for that piece,
    [captures] true exactly when the destination is occupied, the engine's
    answers for the attack on the destination and for the pin, and no
    blocking piece at all when the move is not possible. *)
Theorem RejectedMove_init_outcome (b : Board) (f t : Square) :
  (piece_at b f = None ->
   RejectedMove_init f t b = (Raise AttributeError, b)) /\
  (forall p, piece_at b f = Some p ->
   exists r,
     RejectedMove_init f t b = (Ok r, b) /\
     rm_from_square r = f /\ rm_to_square r = t /\
     is_possible_move (Some p) f t = Ok (rm_possible r) /\
     rm_captures r = is_some (piece_at b t) /\
     rm_still_in_check r = is_attacked_by b (negb (turn b)) t /\
     rm_absolute_pin r = negb (pin b (color p) f =? BB_ALL) /\
     (rm_possible r = false -> rm_blocking_pieces r = 0)).
Proof.
  split; [apply RejectedMove_init_unoccupied |].
  intros p Hp. unfold RejectedMove_init.
  destruct (is_possible_move_some p f t) as [possible Hposs].
  rewrite !bind_gets, Hp, Hposs, bind_lift_ok.
  rewrite (bind_ok _ (blocking_squares_occupied b p f t possible Hp Hposs)).
  rewrite bind_gets. cbn [getattr]. rewrite bind_lift_ok, bind_gets.
  eexists. split; [reflexivity |]. cbn.
  repeat (split; [reflexivity |]).
  intros ->. reflexivity.
Qed.
End Rejects.

Lemma blocking_squares_only_first_six_squares_witness :
  piece_at RefEngine.initial A1 = Some (mkPiece ROOK WHITE) /\
  0 <= A3 < 64 /\
  exists bb,
    blocking_squares A1 A3 RefEngine.initial = (Ok bb, RefEngine.initial) /\
    0 <= bb < 64 /\
    (is_possible_move (Some (mkPiece ROOK WHITE)) A1 A3 = Ok false -> bb = 0) /\
    (forall s, Z.testbit bb s = true -> 0 <= s < 6).
Proof.
  assert (Hp : piece_at RefEngine.initial A1 = Some (mkPiece ROOK WHITE))
    by (vm_compute; reflexivity).
  assert (Ht : 0 <= A3 < 64) by (unfold A3; lia).
  split; [exact Hp |]. split; [exact Ht |].
  exact (blocking_squares_only_first_six_squares RefEngine.initial
           (mkPiece ROOK WHITE) A1 A3 Hp Ht).
Defined.


(** ** Resolution of a directional command: failure and soundness *)

Section ResolutionOutcome.
Context {Board : Type} `{RulesEngine Board}.

Lemma inner_loop_raises (b : Board) caps promo f :
  piece_at b f = None ->
  forall ts cs rs,
    (exists t, In t ts /\ engine_verdict b caps promo (f, t) = None) ->
    for_each ts (fun t acc => consider_pair caps promo f t acc) (cs, rs) b =
      (Raise AttributeError, b).
Proof.
  intros Hempty. induction ts as [|t0 ts IH]; intros cs rs [t [Hin Hv]].
  - destruct Hin.
  - cbn [for_each].
    destruct (engine_verdict b caps promo (f, t0)) as [m|] eqn:V0.
    + rewrite (bind_ok _ (consider_pair_accepts b caps promo f t0 cs rs m V0)).
      apply IH. exists t. split; [| exact Hv].
      destruct Hin as [<- | Hin]; [congruence | exact Hin].
    + pose proof (consider_pair_refuses b caps promo f t0 cs rs V0) as Ec.
      rewrite (RejectedMove_init_unoccupied b f t0 Hempty) in Ec.
      now rewrite (bind_raise _ Ec).
Qed.

Lemma outer_loop_raises (b : Board) caps promo ts :
  forall fs cs rs,
    (exists f t, In (f, t) (list_prod fs ts) /\
                 engine_verdict b caps promo (f, t) = None /\
                 piece_at b f = None) ->
    for_each fs
      (fun f acc =>
         for_each ts (fun t acc => consider_pair caps promo f t acc) acc)
      (cs, rs) b = (Raise AttributeError, b).
Proof.
  induction fs as [|f0 fs IH]; intros cs rs (f & t & Hin & Hv & Hempty).
  - destruct Hin.
  - cbn [for_each list_prod] in *.
    destruct (piece_at b f0) as [p|] eqn:Hp0.
    + destruct (inner_loop b caps promo f0 ts cs rs) as [rs1 [E1 _]].
      { intros t' _ _. rewrite Hp0. discriminate. }
      rewrite (bind_ok _ E1). apply IH. exists f, t.
      split; [| split; assumption].
      apply in_app_or in Hin. destruct Hin as [Hin | Hin]; [| exact Hin].
      apply in_map_iff in Hin. destruct Hin as (t' & [= <- <-] & _).
      congruence.
    + destruct (existsb (refused b caps promo) (map (pair f0) ts)) eqn:Ex.
      * apply existsb_exists in Ex. destruct Ex as ([f' t'] & Hin' & Hr).
        apply in_map_iff in Hin'. destruct Hin' as (t'' & [= <- <-] & Hin').
        unfold refused in Hr.
        destruct (engine_verdict b caps promo (f0, t'')) eqn:V; [discriminate |].
        rewrite (bind_raise _ (inner_loop_raises b caps promo f0 Hp0 ts cs rs
                                 (ex_intro _ t'' (conj Hin' V)))).
        reflexivity.
      * destruct (inner_loop b caps promo f0 ts cs rs) as [rs1 [E1 _]].
        { intros t' Hin' Hv'. exfalso.
          assert (Hex : existsb (refused b caps promo) (map (pair f0) ts) = true).
          { apply existsb_exists. exists (f0, t'). split; [now apply in_map |].
            unfold refused. now rewrite Hv'. }
          congruence. }
        rewrite (bind_ok _ E1). apply IH. exists f, t.
        split; [| split; assumption].
        apply in_app_or in Hin. destruct Hin as [Hin | Hin]; [| exact Hin].
        apply in_map_iff in Hin. destruct Hin as (t' & [= <- <-] & Hin).
        exfalso.
        assert (Hex : existsb (refused b caps promo) (map (pair f0) ts) = true).
        { apply existsb_exists. exists (f0, t'). split; [now apply in_map |].
          unfold refused. now rewrite Hv. }
        congruence.
Qed.

(** X8: when both specifications satisfy the constructor's invariant and
    some pair of the product has an empty origin square and no legal move
    of the engine's (or none that captures, when a capture was asked for),
    resolution raises [AttributeError] and leaves the board as it was. *)
Theorem consider_moves_raises_on_empty_origin (self : CommandMove) (b : Board) :
  wf_spec (from_where self) -> wf_spec (to_where self) ->
  (exists f t,
     In (f, t) (list_prod (resolved b (from_where self))
                          (resolved b (to_where self))) /\
     engine_verdict b (captures self) (promote_piece_of self) (f, t) = None /\
     piece_at b f = None) ->
  consider_moves self b = (Raise AttributeError, b).
Proof.
  intros Hfrom Hto. unfold resolved.
  destruct (find_candidate_squares_ok (from_where self) b Hfrom) as [fbb Ef].
  destruct (find_candidate_squares_ok (to_where self) b Hto) as [tbb Et].
  rewrite Ef, Et. cbn [fst]. intros Hex.
  unfold consider_moves. rewrite (bind_ok _ Ef), (bind_ok _ Et).
  fold (promote_piece_of self).
  now rewrite (bind_raise _ (outer_loop_raises b (captures self)
                               (promote_piece_of self) (scan_forward tbb)
                               (scan_forward fbb) [] [] Hex)).
Qed.

(** X9: whenever resolution returns, every candidate is the move the
    engine found for an origin and a destination the two specifications
    resolve to, and is a capture if a capture was asked for; every reject
    is a pair of such squares with a piece on the origin for which the
    engine's verdict was negative. *)
Theorem consider_moves_sound (self cmd : CommandMove) (b b' : Board) :
  consider_moves self b = (Ok cmd, b') ->
  (forall m, In m (candidate_moves cmd) ->
     exists f t,
       In f (resolved b (from_where self)) /\
       In t (resolved b (to_where self)) /\
       find_move b f t (promote_piece_of self) = Some m /\
       (captures self = true -> is_capture b m = true)) /\
  (forall r, In r (rejected_moves cmd) ->
     In (rm_from_square r) (resolved b (from_where self)) /\
     In (rm_to_square r) (resolved b (to_where self)) /\
     piece_at b (rm_from_square r) <> None /\
     engine_verdict b (captures self) (promote_piece_of self)
       (rejected_pair r) = None).
Proof.
  intros Hret. unfold resolved.
  pose proof (readonly_find_candidate_squares (from_where self) b) as Rf.
  pose proof (readonly_find_candidate_squares (to_where self) b) as Rt.
  destruct (find_candidate_squares (from_where self) b) as [[fbb|e] b1] eqn:Ef;
    cbn [snd] in Rf; subst b1.
  2: { exfalso. revert Hret. unfold consider_moves.
       rewrite (bind_raise _ Ef). discriminate. }
  destruct (find_candidate_squares (to_where self) b) as [[tbb|e] b1] eqn:Et;
    cbn [snd] in Rt; subst b1.
  2: { exfalso. revert Hret. unfold consider_moves.
       rewrite (bind_ok _ Ef), (bind_raise _ Et). discriminate. }
  cbn [fst].
  assert (Hocc : forall f t,
            In (f, t) (list_prod (scan_forward fbb) (scan_forward tbb)) ->
            engine_verdict b (captures self) (promote_piece_of self) (f, t)
              = None -> piece_at b f <> None).
  { intros f t Hin Hv Hempty. revert Hret. unfold consider_moves.
    rewrite (bind_ok _ Ef), (bind_ok _ Et). fold (promote_piece_of self).
    rewrite (bind_raise _ (outer_loop_raises b (captures self)
                             (promote_piece_of self) (scan_forward tbb)
                             (scan_forward fbb) [] []
                             (ex_intro _ f (ex_intro _ t
                                (conj Hin (conj Hv Hempty)))))).
    discriminate. }
  destruct (outer_loop b (captures self) (promote_piece_of self)
              (scan_forward tbb) (scan_forward fbb) [] [] Hocc)
    as [rs [Eloop Hrs]].
  assert (Ecmd : cmd = mkCommandMove (from_where self) (to_where self)
                         (captures self) (promotes_to self)
                         (flat_map (accepted b (captures self)
                                      (promote_piece_of self))
                            (list_prod (scan_forward fbb) (scan_forward tbb)))
                         rs).
  { revert Hret. unfold consider_moves.
    rewrite (bind_ok _ Ef), (bind_ok _ Et). fold (promote_piece_of self).
    rewrite (bind_ok _ Eloop). cbn [app fst snd]. unfold ret.
    now intros [= <- _]. }
  subst cmd. clear Hret.
  set (caps := captures self) in *. set (promo := promote_piece_of self) in *.
  cbn [candidate_moves rejected_moves]. split.
  - intros m Hm. apply in_flat_map in Hm. destruct Hm as ([f t] & Hin & Hm).
    unfold accepted, engine_verdict in Hm. cbn [fst snd] in Hm.
    apply in_prod_iff in Hin. destruct Hin as [Hf Ht].
    destruct (find_move b f t promo) as [m'|] eqn:Hfind; [| destruct Hm].
    destruct (caps && negb (is_capture b m')) eqn:Hcap; [destruct Hm |].
    destruct Hm as [<- | []]. exists f, t. repeat split; try assumption.
    intros Hc. rewrite Hc in Hcap. cbn in Hcap.
    now apply negb_false_iff in Hcap.
  - intros r Hr. apply (in_map rejected_pair) in Hr. rewrite Hrs in Hr.
    apply filter_In in Hr. destruct Hr as [Hin Href].
    unfold rejected_pair in *. pose proof Hin as Hprod.
    apply in_prod_iff in Hprod. destruct Hprod as [Hf Ht].
    unfold refused in Href.
    destruct (engine_verdict b caps promo (rm_from_square r, rm_to_square r))
      eqn:Hv; [discriminate |].
    repeat split; try assumption. exact (Hocc _ _ Hin Hv).
Qed.
End ResolutionOutcome.

Lemma consider_moves_raises_on_empty_origin_witness :
  wf_spec (from_where e3_to_e4) /\ wf_spec (to_where e3_to_e4) /\
  (exists f t,
     In (f, t) (list_prod (resolved RefEngine.initial (from_where e3_to_e4))
                          (resolved RefEngine.initial (to_where e3_to_e4))) /\
     engine_verdict RefEngine.initial (captures e3_to_e4)
       (promote_piece_of e3_to_e4) (f, t) = None /\
     piece_at RefEngine.initial f = None) /\
  consider_moves e3_to_e4 RefEngine.initial =
    (Raise AttributeError, RefEngine.initial).
Proof.
  assert (Hfrom : wf_spec (from_where e3_to_e4))
    by (split; [| split]; reflexivity).
  assert (Hto : wf_spec (to_where e3_to_e4))
    by (split; [| split]; reflexivity).
  assert (Hex : exists f t,
     In (f, t) (list_prod (resolved RefEngine.initial (from_where e3_to_e4))
                          (resolved RefEngine.initial (to_where e3_to_e4))) /\
     engine_verdict RefEngine.initial (captures e3_to_e4)
       (promote_piece_of e3_to_e4) (f, t) = None /\
     piece_at RefEngine.initial f = None).
  { exists E3, E4. split; [vm_compute; now left |].
    split; vm_compute; reflexivity. }
  split; [exact Hfrom |]. split; [exact Hto |]. split; [exact Hex |].
  exact (consider_moves_raises_on_empty_origin e3_to_e4 RefEngine.initial
           Hfrom Hto Hex).
Defined.

Lemma consider_moves_sound_witness :
  consider_moves knight_to_f3 RefEngine.initial =
    (Ok knight_to_f3_resolved, RefEngine.initial) /\
  (forall m, In m (candidate_moves knight_to_f3_resolved) ->
     exists f t,
       In f (resolved RefEngine.initial (from_where knight_to_f3)) /\
       In t (resolved RefEngine.initial (to_where knight_to_f3)) /\
       find_move RefEngine.initial f t (promote_piece_of knight_to_f3)
         = Some m /\
       (captures knight_to_f3 = true -> is_capture RefEngine.initial m = true)) /\
  (forall r, In r (rejected_moves knight_to_f3_resolved) ->
     In (rm_from_square r) (resolved RefEngine.initial (from_where knight_to_f3)) /\
     In (rm_to_square r) (resolved RefEngine.initial (to_where knight_to_f3)) /\
     piece_at RefEngine.initial (rm_from_square r) <> None /\
     engine_verdict RefEngine.initial (captures knight_to_f3)
       (promote_piece_of knight_to_f3) (rejected_pair r) = None).
Proof.
  assert (Hret : consider_moves knight_to_f3 RefEngine.initial =
                 (Ok knight_to_f3_resolved, RefEngine.initial))
    by (vm_compute; reflexivity).
  split; [exact Hret |].
  exact (consider_moves_sound knight_to_f3 knight_to_f3_resolved
           RefEngine.initial RefEngine.initial Hret).
Defined.

(** ** Resolution of a castle command *)

Section CastleOutcome.
Context {Board : Type} `{RulesEngine Board}.

Lemma castle_conditions_fields (self : CastleMove) (f th t : Square)
  (b b' : Board) (r : CastleMove) :
  cm_side self = "king" \/ cm_side self = "queen" ->
  castle_conditions self f th t b = (Ok r, b') ->
  cm_side r = cm_side self /\ cm_in_check r = cm_in_check self /\
  cm_right_to_castle r =
    Some (if String.eqb (cm_side self) "king"
          then has_kingside_castling_rights b (turn b)
          else has_queenside_castling_rights b (turn b)).
Proof.
  intros Hside. unfold castle_conditions.
  assert (Hgo : forall right self',
    cm_right_to_castle self' = Some right ->
    (right_to_castle <- lift_result (getattr (cm_right_to_castle self')) ;;
     if right_to_castle : bool then
       blocking <- blocking_squares f th ;;
       occupant <- gets (fun b => piece_at b t) ;;
       let blocking :=
         if is_some occupant then sqs_ior blocking t else blocking in
       through_check <-
         gets (fun b => is_attacked_by b (negb (turn b)) th) ;;
       into_check <-
         gets (fun b => is_attacked_by b (negb (turn b)) t) ;;
       ret (mkCastleMove (cm_side self') (cm_in_check self')
              (cm_right_to_castle self') (Some blocking)
              (Some through_check) (Some into_check))
     else ret self') b = (Ok r, b') ->
    cm_side r = cm_side self' /\ cm_in_check r = cm_in_check self' /\
    cm_right_to_castle r = Some right).
  { intros right self' Hright. rewrite Hright. cbn [getattr].
    rewrite bind_lift_ok. destruct right.
    - unfold bind at 1.
      destruct (blocking_squares f th b) as [[bl|e] b1]; [| discriminate].
      rewrite !bind_gets. unfold ret. intros [= <- _]. cbn.
      repeat split; assumption.
    - unfold ret. intros [= <- _]. repeat split; assumption. }
  destruct Hside as [E | E]; rewrite E; cbn [String.eqb Ascii.eqb Bool.eqb];
    rewrite bind_gets_ret; intros Hrun;
    (eapply Hgo in Hrun; [| reflexivity]); cbn in Hrun;
    destruct Hrun as (Hs & Hc & Hr); rewrite Hs, Hc, Hr;
    repeat split; auto.
Qed.

Lemma CastleMove_init_fields (wanted : string) (b b' : Board)
  (r : CastleMove) :
  wanted = "king" \/ wanted = "queen" ->
  CastleMove_init wanted b = (Ok r, b') -> castle_reject_of b wanted r.
Proof.
  intros Hside. unfold CastleMove_init, castle_reject_of.
  rewrite !bind_gets.
  assert (Hgo : forall f th t,
    castle_conditions (mkCastleMove wanted (is_check b) None None None None)
      f th t b = (Ok r, b') ->
    cm_side r = wanted /\ cm_in_check r = is_check b /\
    cm_right_to_castle r =
      Some (if String.eqb wanted "king"
            then has_kingside_castling_rights b (turn b)
            else has_queenside_castling_rights b (turn b))).
  { intros f th t Hrun.
    apply castle_conditions_fields in Hrun; [exact Hrun | exact Hside]. }
  destruct Hside as [-> | ->]; cbn [String.eqb Ascii.eqb Bool.eqb] in *;
    destruct (Bool.eqb (turn b) WHITE); apply Hgo.
Qed.

Lemma castle_try_outcome wanted notation side0 cs rs (b b' : Board) cs' rs' :
  wanted = "king" \/ wanted = "queen" ->
  castle_try wanted notation side0 (cs, rs) b = (Ok (cs', rs'), b') ->
  cs' = cs ++ (if side_tried side0 wanted
               then opt_to_list (parse_san b notation) else []) /\
  exists new,
    rs' = rs ++ new /\
    map cm_side new =
      (if side_tried side0 wanted && negb (is_some (parse_san b notation))
       then [wanted] else []) /\
    Forall (castle_reject_of b wanted) new.
Proof.
  intros Hside. unfold castle_try, try_except_ValueError, side_tried.
  destruct (opt_string_eqb side0 (Some wanted) || negb (truthy side0)).
  - rewrite bind_gets.
    destruct (parse_san b notation) as [m|]; cbn [opt_to_list is_some negb andb].
    + unfold ret. intros [= <- <- _]. split; [reflexivity |].
      exists []. rewrite app_nil_r. repeat split. constructor.
    + unfold raise, bind.
      destruct (CastleMove_init wanted b) as [[r|e] b1] eqn:Einit;
        [| discriminate].
      unfold ret. intros [= <- <- _]. rewrite app_nil_r.
      split; [reflexivity |].
      pose proof (CastleMove_init_fields wanted b b1 r Hside Einit) as Hr.
      exists [r]. split; [reflexivity |]. split.
      * cbn. destruct Hr as (-> & _). reflexivity.
      * constructor; [exact Hr | constructor].
  - unfold ret. intros [= <- <- _]. cbn [andb]. rewrite app_nil_r.
    split; [reflexivity |]. exists []. rewrite app_nil_r.
    repeat split. constructor.
Qed.

(** X10: whenever the resolution of a castle command returns, the kingside
    is dealt with before the queenside; a side is tried when the command
    names it or names no side; a tried side the engine parses is a
    candidate and a tried side it refuses is a reject carrying that side's
    name, the engine's answer to "in check" and its answer for that side's
    castling right.  A command naming no side so ends with two entries in
    all. *)
Theorem castle_consider_moves_outcome (self cmd : CastleCommand)
  (b b' : Board) :
  castle_consider_moves self b = (Ok cmd, b') ->
  side cmd = side self /\
  castle_candidate_moves cmd =
    (if side_tried (side self) "king"
     then opt_to_list (parse_san b "O-O") else [])
    ++ (if side_tried (side self) "queen"
        then opt_to_list (parse_san b "O-O-O") else []) /\
  (exists kingside queenside,
     castle_rejected_moves cmd = kingside ++ queenside /\
     map cm_side kingside =
       (if side_tried (side self) "king"
           && negb (is_some (parse_san b "O-O"))
        then ["king"] else []) /\
     map cm_side queenside =
       (if side_tried (side self) "queen"
           && negb (is_some (parse_san b "O-O-O"))
        then ["queen"] else []) /\
     Forall (castle_reject_of b "king") kingside /\
     Forall (castle_reject_of b "queen") queenside) /\
  (side self = None ->
   (List.length (castle_candidate_moves cmd)
    + List.length (castle_rejected_moves cmd) = 2)%nat).
Proof.
  unfold castle_consider_moves. intros Hrun.
  pose proof (readonly_castle_try "king" "O-O" (side self) ([], []) b) as R1.
  unfold bind in Hrun.
  destruct (castle_try "king" "O-O" (side self) ([], []) b)
    as [[[cs1 rs1]|e] b1] eqn:E1; [| discriminate].
  cbn [snd] in R1. subst b1.
  destruct (castle_try "queen" "O-O-O" (side self) (cs1, rs1) b)
    as [[[cs2 rs2]|e] b2] eqn:E2; [| discriminate].
  unfold ret in Hrun. injection Hrun as <- _.
  cbn [side castle_candidate_moves castle_rejected_moves fst snd].
  destruct (castle_try_outcome "king" "O-O" (side self) [] [] b b cs1 rs1
              (or_introl eq_refl) E1) as (Hc1 & k & Hr1 & Hk & Fk).
  destruct (castle_try_outcome "queen" "O-O-O" (side self) cs1 rs1 b b2 cs2 rs2
              (or_intror eq_refl) E2) as (Hc2 & q & Hr2 & Hq & Fq).
  cbn [app] in Hc1, Hr1. subst cs1 rs1 cs2 rs2.
  split; [reflexivity |]. split; [reflexivity |]. split.
  - exists k, q. repeat split; assumption.
  - intros Hnone. rewrite Hnone in *. cbn in Hk, Hq |- *.
    rewrite !length_app, <- (length_map cm_side k), <- (length_map cm_side q),
      Hk, Hq.
    destruct (parse_san b "O-O"), (parse_san b "O-O-O"); reflexivity.
Qed.
End CastleOutcome.

Lemma castle_consider_moves_outcome_witness :
  castle_consider_moves castle_either RefEngine.initial =
    (Ok castle_either_resolved, RefEngine.initial) /\
  side castle_either_resolved = side castle_either /\
  castle_candidate_moves castle_either_resolved =
    (if side_tried (side castle_either) "king"
     then opt_to_list (parse_san RefEngine.initial "O-O") else [])
    ++ (if side_tried (side castle_either) "queen"
        then opt_to_list (parse_san RefEngine.initial "O-O-O") else []) /\
  (exists kingside queenside,
     castle_rejected_moves castle_either_resolved = kingside ++ queenside /\
     map cm_side kingside =
       (if side_tried (side castle_either) "king"
           && negb (is_some (parse_san RefEngine.initial "O-O"))
        then ["king"] else []) /\
     map cm_side queenside =
       (if side_tried (side castle_either) "queen"
           && negb (is_some (parse_san RefEngine.initial "O-O-O"))
        then ["queen"] else []) /\
     Forall (castle_reject_of RefEngine.initial "king") kingside /\
     Forall (castle_reject_of RefEngine.initial "queen") queenside) /\
  (side castle_either = None ->
   (List.length (castle_candidate_moves castle_either_resolved)
    + List.length (castle_rejected_moves castle_either_resolved) = 2)%nat).
Proof.
  assert (Hrun : castle_consider_moves castle_either RefEngine.initial =
                 (Ok castle_either_resolved, RefEngine.initial))
    by (vm_compute; reflexivity).
  split; [exact Hrun |].
  exact (castle_consider_moves_outcome castle_either castle_either_resolved
           RefEngine.initial RefEngine.initial Hrun).
Defined.

(** ** What the token parser returns *)

(** X11: on a list of tokens none of which is a key of [RANKS] (a bare
    digit 1 to 8), the parser returns as soon as it is allowed more frames
    than there are tokens. *)
Theorem locations_in_tokens_returns_without_digits (tokens : list string)
  (depth : nat) (turn : bool) :
  (forall t, In t tokens -> dict_in RANKS t = false) ->
  (List.length tokens < depth)%nat ->
  exists l, locations_in_tokens depth tokens turn = Ok l.
Proof.
  intros Hnodigit Hdepth.
  exact (locations_in_tokens_returns (List.length tokens) tokens (le_n _)
           Hnodigit depth turn Hdepth).
Qed.

Lemma locations_in_tokens_returns_without_digits_witness :
  (forall t, In t ["knight"; "to"; "f"; "three"] -> dict_in RANKS t = false) /\
  (List.length ["knight"; "to"; "f"; "three"] < 5)%nat /\
  exists l, locations_in_tokens 5 ["knight"; "to"; "f"; "three"] WHITE = Ok l.
Proof.
  assert (Hnodigit : forall t, In t ["knight"; "to"; "f"; "three"] ->
                               dict_in RANKS t = false).
  { intros t [<- | [<- | [<- | [<- | []]]]]; reflexivity. }
  assert (Hdepth : (List.length ["knight"; "to"; "f"; "three"] < 5)%nat)
    by (cbn; lia).
  split; [exact Hnodigit |]. split; [exact Hdepth |].
  exact (locations_in_tokens_returns_without_digits
           ["knight"; "to"; "f"; "three"] 5 WHITE Hnodigit Hdepth).
Defined.

Lemma written_num_is_rank (t r : string) :
  dict_get WRITTEN_NUMS t = Some r -> dict_in RANKS r = true.
Proof.
  intros Hget. apply dict_get_In in Hget. cbn in Hget.
  repeat (destruct Hget as [[= <- <-] | Hget]; [reflexivity |]).
  destruct Hget.
Qed.

Lemma scan_tokens_keeps_invariant
  (recurse : list string -> bool -> result (list SpecificSquares))
  (tokens : list string) (turn : bool) :
  (forall l t r, recurse l t = Ok r ->
                 Forall (fun s => ss_bool s = true /\ wf_spec s) r) ->
  forall rest i loc loc' more,
    wf_spec loc ->
    scan_tokens recurse tokens turn i rest loc = Ok (loc', more) ->
    wf_spec loc' /\ Forall (fun s => ss_bool s = true /\ wf_spec s) more.
Proof.
  intros Hrec. induction rest as [|token rest IH];
    intros i loc loc' more Hwf; cbn [scan_tokens].
  - intros [= <- <-]. split; [exact Hwf | constructor].
  - destruct Hwf as (Hp & Hf & Hr).
    destruct (dict_in PIECES token && negb (ss_bool loc)) eqn:C1.
    { apply IH. apply andb_true_iff in C1. destruct C1 as [C1 _].
      repeat split; assumption. }
    destruct (String.eqb token "on").
    { apply IH. repeat split; assumption. }
    destruct (dict_in FILES token && negb (truthy (ss_file loc))
              && negb (truthy (ss_rank loc))) eqn:C3.
    { apply IH. rewrite !andb_true_iff in C3. destruct C3 as [[C3 _] _].
      repeat split; assumption. }
    destruct (dict_in WRITTEN_NUMS token && negb (truthy (ss_rank loc))).
    { apply IH. repeat split; try assumption. cbn [ss_rank].
      destruct (dict_get WRITTEN_NUMS token) as [r|] eqn:G; [| reflexivity].
      exact (written_num_is_rank token r G). }
    match goal with
    | |- rbind (recurse ?l ?t) _ = _ -> _ =>
        destruct (recurse l t) as [r|e] eqn:Er; cbn [rbind];
        [| discriminate]
    end.
    intros [= <- <-]. split; [repeat split; assumption |].
    exact (Hrec _ _ _ Er).
Qed.

(** X12: every specification the parser returns is non-empty and satisfies
    the invariant the constructor asserts -- its piece, file and rank, when
    set, are keys of [PIECES], [FILES] and [RANKS] -- although the parser
    assigns the attributes directly. *)
Theorem locations_in_tokens_well_formed :
  forall (depth : nat) (tokens : list string) (turn : bool)
         (l : list SpecificSquares),
    locations_in_tokens depth tokens turn = Ok l ->
    Forall (fun s => ss_bool s = true /\ wf_spec s) l.
Proof.
  induction depth as [|depth IH]; intros tokens turn l; [discriminate |].
  destruct tokens as [|tok tokens']; [intros [= <-]; constructor |].
  remember (tok :: tokens') as tokens eqn:Etok.
  assert (Hunfold : locations_in_tokens (S depth) tokens turn =
    rbind (scan_tokens (locations_in_tokens depth) tokens turn 0%nat tokens
             (mkSpecificSquares turn None None None))
          (fun r => Ok (if ss_bool (fst r) then fst r :: snd r else snd r)))
    by (subst tokens; reflexivity).
  rewrite Hunfold. clear Hunfold.
  destruct (scan_tokens (locations_in_tokens depth) tokens turn 0%nat tokens
              (mkSpecificSquares turn None None None))
    as [[loc more]|e] eqn:Escan; cbn [rbind fst snd]; [| discriminate].
  intros [= <-].
  assert (Hfresh : wf_spec (mkSpecificSquares turn None None None))
    by (split; [| split]; reflexivity).
  destruct (scan_tokens_keeps_invariant (locations_in_tokens depth) tokens
              turn IH tokens 0%nat _ loc more Hfresh Escan) as [Hwf Hmore].
  destruct (ss_bool loc) eqn:Hb; [| exact Hmore].
  constructor; [split; assumption | exact Hmore].
Qed.

Lemma scan_tokens_counts
  (recurse : list string -> bool -> result (list SpecificSquares))
  (tokens : list string) (turn : bool) :
  (forall l t r, recurse l t = Ok r ->
                 (List.length r <= List.length l)%nat) ->
  forall rest i loc loc' more,
    skipn i tokens = rest -> (i <= List.length tokens)%nat ->
    (i = 0%nat -> ss_bool loc = false) ->
    scan_tokens recurse tokens turn i rest loc = Ok (loc', more) ->
    ((if ss_bool loc' then 1 else 0) + List.length more
     <= List.length tokens)%nat.
Proof.
  intros Hrec. induction rest as [|token rest IH];
    intros i loc loc' more Hskip Hi Hfresh; cbn [scan_tokens].
  - intros [= <- <-]. cbn [List.length].
    destruct (ss_bool loc) eqn:Hb; [| lia].
    destruct i as [|i]; [discriminate (Hfresh eq_refl) | lia].
  - destruct (skipn_step i tokens token rest Hskip) as (Hnext & _ & Hlt).
    assert (Hlater : forall loc0, S i = 0%nat -> ss_bool loc0 = false)
      by discriminate.
    destruct (dict_in PIECES token && negb (ss_bool loc)).
    { apply IH; [exact Hnext | lia | apply Hlater]. }
    destruct (String.eqb token "on").
    { apply IH; [exact Hnext | lia | apply Hlater]. }
    destruct (dict_in FILES token && negb (truthy (ss_file loc))
              && negb (truthy (ss_rank loc))).
    { apply IH; [exact Hnext | lia | apply Hlater]. }
    destruct (dict_in WRITTEN_NUMS token && negb (truthy (ss_rank loc))).
    { apply IH; [exact Hnext | lia | apply Hlater]. }
    set (i' := if negb (dict_in PIECES token || dict_in FILES token
                        || dict_in RANKS token) then S i else i).
    assert (Hi' : (i <= i' <= S i)%nat)
      by (subst i'; destruct (negb _); lia).
    destruct (recurse (skipn i' tokens) (negb turn)) as [r|e] eqn:Er;
      cbn [rbind]; [| discriminate].
    intros [= <- <-]. apply Hrec in Er. rewrite length_skipn in Er.
    destruct (ss_bool loc) eqn:Hb; [| lia].
    destruct i as [|i]; [discriminate (Hfresh eq_refl) | lia].
Qed.

(** X13: the parser never returns more specifications than it was given
    tokens. *)
Theorem locations_in_tokens_at_most_one_per_token :
  forall (depth : nat) (tokens : list string) (turn : bool)
         (l : list SpecificSquares),
    locations_in_tokens depth tokens turn = Ok l ->
    (List.length l <= List.length tokens)%nat.
Proof.
  induction depth as [|depth IH]; intros tokens turn l; [discriminate |].
  destruct tokens as [|tok tokens']; [intros [= <-]; cbn; lia |].
  remember (tok :: tokens') as tokens eqn:Etok.
  assert (Hunfold : locations_in_tokens (S depth) tokens turn =
    rbind (scan_tokens (locations_in_tokens depth) tokens turn 0%nat tokens
             (mkSpecificSquares turn None None None))
          (fun r => Ok (if ss_bool (fst r) then fst r :: snd r else snd r)))
    by (subst tokens; reflexivity).
  rewrite Hunfold. clear Hunfold.
  destruct (scan_tokens (locations_in_tokens depth) tokens turn 0%nat tokens
              (mkSpecificSquares turn None None None))
    as [[loc more]|e] eqn:Escan; cbn [rbind fst snd]; [| discriminate].
  intros [= <-].
  assert (Hfresh : 0%nat = 0%nat ->
            ss_bool (mkSpecificSquares turn None None None) = false)
    by reflexivity.
  pose proof (scan_tokens_counts (locations_in_tokens depth) tokens turn IH
                tokens 0%nat _ loc more eq_refl (Nat.le_0_l _)
                Hfresh Escan) as Hcount.
  destruct (ss_bool loc); cbn [List.length] in *; lia.
Qed.

Lemma locations_in_tokens_well_formed_witness :
  locations_in_tokens 3 ["e"; "two"; "e"; "four"] WHITE =
    Ok [square_e2; square_e4] /\
  Forall (fun s => ss_bool s = true /\ wf_spec s) [square_e2; square_e4].
Proof.
  assert (Hrun : locations_in_tokens 3 ["e"; "two"; "e"; "four"] WHITE =
                 Ok [square_e2; square_e4]) by reflexivity.
  split; [exact Hrun |].
  exact (locations_in_tokens_well_formed 3 ["e"; "two"; "e"; "four"] WHITE
           [square_e2; square_e4] Hrun).
Defined.

Lemma locations_in_tokens_at_most_one_per_token_witness :
  locations_in_tokens 3 ["e"; "two"; "e"; "four"] WHITE =
    Ok [square_e2; square_e4] /\
  (List.length [square_e2; square_e4]
   <= List.length ["e"; "two"; "e"; "four"])%nat.
Proof.
  assert (Hrun : locations_in_tokens 3 ["e"; "two"; "e"; "four"] WHITE =
                 Ok [square_e2; square_e4]) by reflexivity.
  split; [exact Hrun |].
  exact (locations_in_tokens_at_most_one_per_token 3
           ["e"; "two"; "e"; "four"] WHITE [square_e2; square_e4] Hrun).
Defined.

(** ** Requests the parser cannot serve *)

Lemma last_token_exists (tokens other : list string) :
  intersects tokens other = true ->
  exists t, index tokens (List.length tokens - 1) = Ok t.
Proof.
  intros Hint. unfold index.
  destruct (nth_error tokens (List.length tokens - 1)) as [t|] eqn:E;
    [eauto |].
  apply nth_error_None in E.
  destruct tokens as [|t tokens]; [discriminate | cbn in E; lia].
Qed.

Section RequestErrors.
Context {Board : Type} `{RulesEngine Board}.

(** X14: deciphering a request -- parsing it, resolving the command it
    describes, reading the last move for "takes" -- leaves the board as it
    was, whatever is returned or raised. *)
Theorem decipher_request_leaves_board (depth : nat) (request : string)
  (b : Board) :
  snd (decipher_request depth request b) = b.
Proof. exact (readonly_decipher_request depth request b). Qed.

(** X15: for a request other than "why" and without the word "castle":
    when the parser finds no specification in it the request raises
    [IndexError]; when it finds a single specification that lacks a file or
    a rank and the request has no capture word, it raises
    [AssertionError]; and an exception of the parser is passed on.  The
    board is left as it was. *)
Theorem decipher_request_unsupported (depth : nat) (request : string)
  (b : Board) :
  request <> "why" ->
  str_in "castle" (split request) = false ->
  (locations_in_tokens depth
     (if intersects (split request) PROMOTE_TOKENS
      then removelast (split request) else split request) (turn b) = Ok [] ->
   decipher_request depth request b = (Raise IndexError, b)) /\
  (forall loc,
     locations_in_tokens depth
       (if intersects (split request) PROMOTE_TOKENS
        then removelast (split request) else split request) (turn b)
       = Ok [loc] ->
     truthy (ss_file loc) && truthy (ss_rank loc) = false ->
     intersects (split request) TAKE_TOKENS = false ->
     decipher_request depth request b = (Raise AssertionError, b)) /\
  (forall e,
     locations_in_tokens depth
       (if intersects (split request) PROMOTE_TOKENS
        then removelast (split request) else split request) (turn b)
       = Raise e ->
     decipher_request depth request b = (Raise e, b)).
Proof.
  intros Hwhy Hcastle. unfold decipher_request.
  apply String.eqb_neq in Hwhy. rewrite Hwhy, Hcastle.
  destruct (intersects (split request) PROMOTE_TOKENS) eqn:Hpromote.
  - destruct (last_token_exists _ _ Hpromote) as [t Et]. rewrite Et.
    rewrite bind_assoc, bind_lift_ok, bind_ret, bind_gets.
    split; [| split].
    + intros ->. reflexivity.
    + intros loc -> Hshape Htake. rewrite Htake, bind_lift_ok.
      cbn [List.length Nat.eqb index nth_error].
      rewrite !bind_assoc, bind_lift_ok, Hshape. reflexivity.
    + intros e ->. reflexivity.
  - rewrite bind_ret, bind_gets.
    split; [| split].
    + intros ->. reflexivity.
    + intros loc -> Hshape Htake. rewrite Htake, bind_lift_ok.
      cbn [List.length Nat.eqb index nth_error].
      rewrite !bind_assoc, bind_lift_ok, Hshape. reflexivity.
    + intros e ->. reflexivity.
Qed.
End RequestErrors.

Lemma decipher_request_unsupported_witness :
  "knight" <> "why" /\
  str_in "castle" (split "knight") = false /\
  (locations_in_tokens recursion_limit
     (if intersects (split "knight") PROMOTE_TOKENS
      then removelast (split "knight") else split "knight")
     (turn RefEngine.initial) = Ok [] ->
   decipher_request recursion_limit "knight" RefEngine.initial
     = (Raise IndexError, RefEngine.initial)) /\
  (forall loc,
     locations_in_tokens recursion_limit
       (if intersects (split "knight") PROMOTE_TOKENS
        then removelast (split "knight") else split "knight")
       (turn RefEngine.initial) = Ok [loc] ->
     truthy (ss_file loc) && truthy (ss_rank loc) = false ->
     intersects (split "knight") TAKE_TOKENS = false ->
     decipher_request recursion_limit "knight" RefEngine.initial
       = (Raise AssertionError, RefEngine.initial)) /\
  (forall e,
     locations_in_tokens recursion_limit
       (if intersects (split "knight") PROMOTE_TOKENS
        then removelast (split "knight") else split "knight")
       (turn RefEngine.initial) = Raise e ->
     decipher_request recursion_limit "knight" RefEngine.initial
       = (Raise e, RefEngine.initial)).
Proof.
  assert (Hwhy : "knight" <> "why") by discriminate.
  assert (Hcastle : str_in "castle" (split "knight") = false) by reflexivity.
  split; [exact Hwhy |]. split; [exact Hcastle |].
  exact (decipher_request_unsupported recursion_limit "knight"
           RefEngine.initial Hwhy Hcastle).
Defined.

Example knight_alone_is_an_assertion_error :
  decipher_request recursion_limit "knight" RefEngine.initial =
    (Raise AssertionError, RefEngine.initial).
Proof. vm_compute. reflexivity. Qed.

(** ** What is said *)

Section Speech.
Context {Board : Type} `{RulesEngine Board}.

Lemma assistant_says (text : string) (w : World Board) :
  assistant text w = (Ok tt, said w [text]).
Proof. reflexivity. Qed.



(** X16: without capture intent, or when no reject is geometrically
    possible, the explanation of a directional command never fails and
    says at most one sentence: the generic one when no reject is possible,
    and nothing at all when some reject is possible. *)
Theorem explain_no_moves_without_detail (cmd : CommandMove)
  (w : World Board) :
  captures cmd = false \/ existsb rm_possible (rejected_moves cmd) = false ->
  explain_no_moves cmd w =
    (Ok tt,
     said w (if existsb rm_possible (rejected_moves cmd) then []
             else ["The piece you're trying to move cannot move like that."])).
Proof.
  intros Hshape. unfold explain_no_moves.
  rewrite (filter_nil_existsb rm_possible (rejected_moves cmd)) in *.
  destruct (filter rm_possible (rejected_moves cmd)) as [|r l].
  - apply assistant_says.
  - destruct Hshape as [-> | Hnone]; [| discriminate].
    unfold ret. now rewrite said_nil.
Qed.


End Speech.

Lemma explain_no_moves_without_detail_witness :
  (captures knight_to_f3_resolved = false \/
   existsb rm_possible (rejected_moves knight_to_f3_resolved) = false) /\
  explain_no_moves knight_to_f3_resolved (fresh_world RefEngine.initial) =
    (Ok tt,
     said (fresh_world RefEngine.initial)
       (if existsb rm_possible (rejected_moves knight_to_f3_resolved) then []
        else ["The piece you're trying to move cannot move like that."])).
Proof.
  assert (Hshape : captures knight_to_f3_resolved = false \/
            existsb rm_possible (rejected_moves knight_to_f3_resolved) = false)
    by (left; vm_compute; reflexivity).
  split; [exact Hshape |].
  exact (explain_no_moves_without_detail knight_to_f3_resolved
           (fresh_world RefEngine.initial) Hshape).
Defined.


Example e2_takes_e4_explained :
  w_spoken (snd (explain_no_moves e2_takes_e4_resolved
                   (fresh_world RefEngine.initial))) =
    ["The following moves are non-captures:"; "The pawn on e2 to e4"].
Proof. vm_compute. reflexivity. Qed.

(** ** Responding *)

Section Responding.
Context {Board : Type} `{RulesEngine Board}.


End Responding.

(** ** One utterance, several hypotheses *)

Section ListeningFacts.
Context {Board : Type} `{RulesEngine Board}.

Lemma on_board_decipher (depth : nat) (guess : string) (w : World Board) :
  on_board (decipher_request depth guess) w =
    (fst (decipher_request depth guess (w_board w)), w).
Proof.
  unfold on_board.
  pose proof (readonly_decipher_request depth guess (w_board w)) as R.
  destruct (decipher_request depth guess (w_board w)) as [r b].
  cbn [fst snd] in *. subst b. destruct w. reflexivity.
Qed.

Lemma try_guesses_step (depth : nat) (g : string) (rest : list string)
  (fwr : option BoardCommand) (w : World Board) :
  try_guesses depth (g :: rest) fwr w =
  match fst (decipher_request depth g (w_board w)) with
  | Ok (Inquiry q) => respond_to_request (Inquiry q) w
  | Ok (Command command) =>
      let remember := negb (is_some fwr) && command_has_rejects command in
      let w1 := if remember
                then mkWorld (w_board w) (w_spoken w) (Some g)
                       (last_board_command w)
                else w in
      match command_candidates command with
      | [] => try_guesses depth rest
                (if remember then Some command else fwr) w1
      | _ :: _ =>
          respond_to_request (Command command)
            (mkWorld (w_board w) (w_spoken w) (Some g) (last_board_command w))
      end
  | Raise e => (Raise e, w)
  end.
Proof.
  cbn [try_guesses]. unfold bind at 1. rewrite on_board_decipher.
  destruct (fst (decipher_request depth g (w_board w)))
    as [[q|command]|e]; try reflexivity.
  cbv zeta.
  destruct (negb (is_some fwr) && command_has_rejects command);
    destruct (command_candidates command); reflexivity.
Qed.

(** X20: the hypotheses are tried in order, and those after a decisive one
    -- one that parses to "why", to a command with a candidate, or that
    the parser fails on -- are never looked at: whatever follows it, the
    outcome of the whole utterance is the same. *)
Theorem later_guesses_are_ignored (depth : nat) (guess : string)
  (post post' : list string) :
  forall (pre : list string) (first_with_rejects : option BoardCommand)
         (w : World Board),
    decisive depth guess (w_board w) ->
    try_guesses depth (pre ++ guess :: post) first_with_rejects w =
    try_guesses depth (pre ++ guess :: post') first_with_rejects w.
Proof.
  induction pre as [|p pre IH]; intros fwr w Hdec; cbn [app];
    rewrite !try_guesses_step.
  - unfold decisive in Hdec.
    destruct (fst (decipher_request depth guess (w_board w)))
      as [[q|command]|e]; try reflexivity.
    destruct (command_candidates command) as [|m ms]; [contradiction |].
    reflexivity.
  - destruct (fst (decipher_request depth p (w_board w)))
      as [[q|command]|e]; try reflexivity.
    destruct (command_candidates command) as [|m ms]; [| reflexivity].
    cbv zeta.
    destruct (negb (is_some fwr) && command_has_rejects command);
      apply IH; exact Hdec.
Qed.

Lemma try_guesses_board (depth : nat) :
  forall (guesses : list string) (first_with_rejects : option BoardCommand)
         (w : World Board),
    (forall c, first_with_rejects = Some c -> command_candidates c = []) ->
    w_board (snd (try_guesses depth guesses first_with_rejects w))
      = w_board w \/
    exists guess cmd m,
      In guess guesses /\
      fst (decipher_request depth guess (w_board w)) = Ok (Command cmd) /\
      command_candidates cmd = [m] /\
      w_board (snd (try_guesses depth guesses first_with_rejects w))
        = push (w_board w) m.
Proof.
  induction guesses as [|g guesses IH]; intros fwr w Hfwr.
  - left. cbn [try_guesses]. destruct fwr as [c|]; [| reflexivity].
    cbn [respond_to_request]. rewrite respond_to_command_board.
    now rewrite (Hfwr c eq_refl).
  - rewrite try_guesses_step.
    destruct (fst (decipher_request depth g (w_board w)))
      as [[q|command]|e] eqn:Eg.
    + left. cbn [respond_to_request].
      apply keeps_board_respond_to_inquiry.
    + cbv zeta. destruct (command_candidates command) as [|m ms] eqn:Ec.
      * match goal with
        | |- context [try_guesses depth guesses ?f ?w1] =>
            assert (Hb1 : w_board w1 = w_board w)
              by (destruct (negb (is_some fwr) && command_has_rejects command);
                  reflexivity);
            destruct (IH f w1)
              as [Hsame | (g' & c' & m' & Hin & Hd & Hc & Hb)]
        end.
        -- destruct (negb (is_some fwr) && command_has_rejects command);
             [intros c [= <-]; exact Ec | exact Hfwr].
        -- left. now rewrite Hsame.
        -- right. exists g', c', m'. rewrite Hb1 in Hd, Hb.
           repeat split; auto. now right.
      * cbn [respond_to_request].
        rewrite respond_to_command_board, Ec. cbn [w_board].
        destruct ms as [|m2 ms].
        -- right. exists g, command, m. repeat split; auto. now left.
        -- left. reflexivity.
    + left. reflexivity.
Qed.

(** X21: after one utterance the board is as it was, or it is the board
    the engine gets by pushing the single candidate of the command one of
    the hypotheses parses to on the board as it was. *)
Theorem listen_to_request_board (depth : nat) (heard : Heard)
  (w : World Board) :
  w_board (snd (listen_to_request depth heard w)) = w_board w \/
  exists guesses guess cmd m,
    heard = Nbest guesses /\ In guess guesses /\
    fst (decipher_request depth guess (w_board w)) = Ok (Command cmd) /\
    command_candidates cmd = [m] /\
    w_board (snd (listen_to_request depth heard w)) = push (w_board w) m.
Proof.
  destruct heard as [guesses| |message]; cbn [listen_to_request];
    [| left; reflexivity | left; reflexivity].
  destruct (try_guesses_board depth guesses None w)
    as [Hsame | (g & c & m & Hin & Hd & Hc & Hb)]; [discriminate | |].
  - left. exact Hsame.
  - right. exists guesses, g, c, m. repeat split; auto.
Qed.
End ListeningFacts.

Lemma later_guesses_are_ignored_witness :
  decisive recursion_limit "e two e four"
    (w_board (fresh_world RefEngine.initial)) /\
  try_guesses recursion_limit (["e three e five"] ++ "e two e four" :: ["why"])
    None (fresh_world RefEngine.initial) =
  try_guesses recursion_limit (["e three e five"] ++ "e two e four" :: [])
    None (fresh_world RefEngine.initial).
Proof.
  assert (Hdec : decisive recursion_limit "e two e four"
                   (w_board (fresh_world RefEngine.initial))).
  { unfold decisive.
    replace (fst (decipher_request recursion_limit "e two e four"
                    (w_board (fresh_world RefEngine.initial))))
      with (Ok (Command (Directional
              (mkCommandMove square_e2 square_e4 false None
                 [mkMove E2 E4 None] []))) : result Parsed)
      by (vm_compute; reflexivity).
    discriminate. }
  split; [exact Hdec |].
  exact (later_guesses_are_ignored recursion_limit "e two e four"
           ["why"] [] ["e three e five"] None
           (fresh_world RefEngine.initial) Hdec).
Defined.

Lemma files_keys (f : string) :
  dict_in FILES f = true ->
  In f ["a"; "b"; "c"; "d"; "e"; "f"; "g"; "h"].
Proof.
  intros Hin. destruct (dict_in_get FILES f Hin) as [v G].
  apply dict_get_In in G. cbn in G.
  repeat (destruct G as [[= <- _] | G]; [cbn; tauto |]).
  destruct G.
Qed.

Lemma ranks_keys (r : string) :
  dict_in RANKS r = true ->
  In r ["1"; "2"; "3"; "4"; "5"; "6"; "7"; "8"].
Proof.
  intros Hin. destruct (dict_in_get RANKS r Hin) as [v G].
  apply dict_get_In in G. cbn in G.
  repeat (destruct G as [[= <- _] | G]; [cbn; tauto |]).
  destruct G.
Qed.

Section SquareOfName.
Context {Board : Type} `{RulesEngine Board}.

(** X22: a specification with a file and a rank and no piece resolves, on
    every board and for either colour, to exactly one square, and the name
    of that square is the file letter followed by the rank digit. *)
Theorem file_and_rank_resolve_to_one_square (b : Board) (c : Color)
  (f r : string) :
  dict_in FILES f = true -> dict_in RANKS r = true ->
  exists s,
    0 <= s < 64 /\
    resolved b (mkSpecificSquares c None (Some f) (Some r)) = [s] /\
    square_name s = String.append f r.
Proof.
  intros Hf Hr. apply files_keys in Hf. apply ranks_keys in Hr.
  cbn [In] in Hf, Hr.
  repeat (destruct Hf as [<- | Hf]);
    try contradiction;
    repeat (destruct Hr as [<- | Hr]);
    try contradiction;
    (eexists; split; [| split; [vm_compute; reflexivity |]];
     [| vm_compute; reflexivity]; lia).
Qed.
End SquareOfName.

Lemma file_and_rank_resolve_to_one_square_witness :
  dict_in FILES "f" = true /\ dict_in RANKS "3" = true /\
  exists s,
    0 <= s < 64 /\
    resolved RefEngine.initial (mkSpecificSquares BLACK None (Some "f") (Some "3"))
      = [s] /\
    square_name s = String.append "f" "3".
Proof.
  assert (Hf : dict_in FILES "f" = true) by reflexivity.
  assert (Hr : dict_in RANKS "3" = true) by reflexivity.
  split; [exact Hf |]. split; [exact Hr |].
  exact (file_and_rank_resolve_to_one_square RefEngine.initial BLACK "f" "3"
           Hf Hr).
Defined.
